(** * Multi-stage breast-cancer diagnosis: a shallow embedding

    This development embeds [code/multi-stage-diagnosis.py] and proves
    properties of its two-stage decision pipeline ([predict], [diagnose])
    and of the two [App] methods that feed it ([upload_image],
    [run_diagnosis]).

    The script calls three libraries: PIL/Keras for reading an image,
    NumPy for the tensor arithmetic and TensorFlow Lite for inference.
    Their observable behaviour is modelled here as far as the script uses
    it:
    - single-precision numbers are IEEE-754 binary32 values, given by the
      [spec_float] of the standard library at precision 24 and maximal
      exponent 128;
    - the file system is part of the machine state: a model file is either
      absent/malformed or a compiled graph; an image path is absent, a
      directory, not readable, not an image, an image cut short, or a
      decoded picture;
    - memory that is allocated and not initialised holds anything: what a
      fresh pixel buffer holds is part of the machine state;
    - every library call that touches a file or the interpreter leaves an
      [event], in program order, so that the order of the calls can be
      stated;
    - a Python exception is a value of type [exn] that aborts the rest of
      the computation.

    What is taken for granted about the libraries: a graph that loads has
    one float32 input tensor and leaves one number at [[0][0]] of its
    output tensor; on such a graph [allocate_tensors], [invoke] and
    [get_tensor] do not fail, and [set_tensor] fails exactly on a value of
    another shape; a picture is decoded to 8-bit bands in mode L, RGB or
    RGBA; resizing is nearest-neighbour, the default of [load_img], done
    by Pillow's [ImagingScaleAffine] in double precision; the sides of a
    picture and of a target are below 2^24, so that Pillow's conversion of
    a side to a C float is exact. *)

From Stdlib Require Import ZArith NArith List String Ascii Bool Lia.
From Stdlib Require Import Floats.SpecFloat.
From Stdlib Require Import FunctionalExtensionality.
From Stdlib Require Strings.Byte.
Import ListNotations.

Local Open Scope string_scope.
Local Open Scope list_scope.
Local Open Scope nat_scope.

(** ** Single-precision floats *)

Module F32.

Definition prec : Z := 24.
Definition emax : Z := 128.

(** A NumPy [float32]. Values held by an array are canonical:
    they satisfy [is_float32]. *)
Definition float32 : Type := spec_float.

Definition is_float32 (x : float32) : bool := valid_binary prec emax x.

(** Conversion of an integer, as [np.asarray(img, dtype='float32')] does
    for a pixel intensity. *)
Definition of_Z (k : Z) : float32 := binary_normalize prec emax k 0 false.

Definition of_byte (b : Byte.byte) : float32 := of_Z (Z.of_N (Byte.to_N b)).

Definition zero : float32 := S754_zero false.
Definition one : float32 := of_Z 1.

(** The literal [255.0]. *)
Definition c255 : float32 := of_Z 255.

(** The literal [0.5]. *)
Definition half : float32 := binary_normalize prec emax 1 (-1) false.

Definition div (x y : float32) : float32 := SFdiv prec emax x y.

(** Python's [x > y] and [x <= y]; both are [False] on a NaN. *)
Definition gt (x y : float32) : bool := SFltb y x.
Definition le (x y : float32) : bool := SFleb x y.

Definition is_nan (x : float32) : bool :=
  match x with S754_nan => true | _ => false end.

End F32.

Export F32.

(** ** Double-precision floats *)

(** The C [double] of Pillow's coordinate arithmetic: IEEE-754 binary64. *)
Module F64.

Definition prec : Z := 53.
Definition emax : Z := 1024.

Definition float64 : Type := spec_float.

(** Conversion of a C [int]. *)
Definition of_nat (n : nat) : float64 :=
  binary_normalize prec emax (Z.of_nat n) 0 false.

Definition zero : float64 := S754_zero false.

(** The literal [0.5]. *)
Definition half : float64 := binary_normalize prec emax 1 (-1) false.

Definition add (x y : float64) : float64 := SFadd prec emax x y.
Definition mul (x y : float64) : float64 := SFmul prec emax x y.
Definition div (x y : float64) : float64 := SFdiv prec emax x y.

(** The cast [(int) v]: truncation towards zero. *)
Definition to_int (v : float64) : Z :=
  match v with
  | S754_finite s m e =>
      let a := match e with
               | Z0 => Zpos m
               | Zpos p => Z.shiftl (Zpos m) (Zpos p)
               | Zneg p => Z.shiftr (Zpos m) (Zpos p)
               end in
      if s then Z.opp a else a
  | _ => 0%Z
  end.

End F64.

(** ** NumPy arrays *)

(** An array is its shape and its items, addressed by a multi-index.
    [arr_item a idx] is [None] when [idx] is not an index of the array
    (NumPy raises [IndexError] there). *)
Record ndarray : Type := mkArray {
  arr_shape : list nat;
  arr_item : list nat -> option float32
}.

(** [in_bounds sh idx]: [idx] has one coordinate per axis, each below the
    extent of its axis. *)
Fixpoint in_bounds (sh idx : list nat) : bool :=
  match sh, idx with
  | [], [] => true
  | n :: sh', i :: idx' => (i <? n) && in_bounds sh' idx'
  | _, _ => false
  end.

(** [a / 255.0]: element-wise division by a scalar, same shape. *)
Definition div_scalar (a : ndarray) (d : float32) : ndarray :=
  mkArray (arr_shape a)
          (fun idx => option_map (fun v => div v d) (arr_item a idx)).

(** [a[np.newaxis, ...]]: a new leading axis of extent 1. *)
Definition newaxis (a : ndarray) : ndarray :=
  mkArray (1 :: arr_shape a)
          (fun idx => match idx with
                      | 0 :: idx' => arr_item a idx'
                      | _ => None
                      end).

Fixpoint shape_eqb (s1 s2 : list nat) : bool :=
  match s1, s2 with
  | [], [] => true
  | a :: s1', b :: s2' => (a =? b) && shape_eqb s1' s2'
  | _, _ => false
  end.

(** ** Exceptions *)

Inductive exn : Type :=
| ValueError_model (model_path : string)
    (* tf.lite.Interpreter: "Could not open ..." *)
| FileNotFoundError (image_path : string)
    (* load_img: open(path, 'rb') on a path that does not exist *)
| IsADirectoryError (image_path : string)
    (* load_img: open(path, 'rb') on a directory *)
| PermissionError (image_path : string)
    (* load_img: open(path, 'rb') on a file that may not be read *)
| UnidentifiedImageError (image_path : string)
    (* load_img: PIL.Image.open *)
| OSError_truncated (image_path : string)
    (* Image.load: "image file is truncated" *)
| ValueError_size (width height : nat)
    (* Image.resize: "height and width must be > 0" *)
| ValueError_dimension (model_path : string) (got expected : list nat).
    (* set_tensor: "Cannot set tensor: Dimension mismatch" *)

(** The failures that come from the image path, as opposed to the models. *)
Definition is_input_error (e : exn) : bool :=
  match e with
  | FileNotFoundError _ | IsADirectoryError _ | PermissionError _
  | UnidentifiedImageError _ | OSError_truncated _ => true
  | _ => false
  end.


Inductive result (A : Type) : Type :=
| Ok (a : A)
| Raise (e : exn).
Arguments Ok {A} a.
Arguments Raise {A} e.

(** ** PIL images *)

(** The pixel modes the model distinguishes, with their number of bands. *)
Inductive mode : Type := L | RGB | RGBA.

Definition bands (m : mode) : nat :=
  match m with L => 1 | RGB => 3 | RGBA => 4 end.

(** A decoded picture: mode, size as PIL gives it ([width], [height]) and
    the 8-bit intensity of band [c] of the pixel at column [x], row [y]. *)
Record Image : Type := mkImage {
  im_mode : mode;
  im_width : nat;
  im_height : nat;
  im_px : nat -> nat -> nat -> Byte.byte
}.

(** [img.convert('RGB')]: a grey level is replicated on the three bands,
    the alpha band of an RGBA picture is dropped. *)
Definition convert_RGB (img : Image) : Image :=
  match im_mode img with
  | RGB => img
  | L => mkImage RGB (im_width img) (im_height img)
                 (fun x y _ => im_px img x y 0)
  | RGBA => mkImage RGB (im_width img) (im_height img) (im_px img)
  end.

(** *** Pillow's nearest-neighbour scaling *)

(** [COORD(v)]: [((v) < 0.0 ? -1 : ((int)(v)))]. *)
Definition COORD (v : F64.float64) : Z :=
  if SFltb v F64.zero then (-1)%Z else F64.to_int v.

(** The loop of [ImagingScaleAffine] over [n] target positions: the
    source position of each is [COORD(xo)], after which [xo += a]. *)
Fixpoint pretabulate (n : nat) (xo a : F64.float64) : list Z :=
  match n with
  | 0 => []
  | S n' => COORD xo :: pretabulate n' (F64.add xo a) a
  end.

(** The source positions of the [dst] target positions along one axis,
    for a source of [src] pixels: [a = (double) src / dst], and [xo]
    starts at [0.0 + a * 0.5]. *)
Definition positions (src dst : nat) : list Z :=
  let a := F64.div (F64.of_nat src) (F64.of_nat dst) in
  pretabulate dst (F64.add F64.zero (F64.mul a F64.half)) a.

(** [xin >= 0 && xin < size] *)
Definition inside (size : nat) (i : Z) : bool :=
  (0 <=? i)%Z && (i <? Z.of_nat size)%Z.

(** [xmin]: the first target position, from [x], whose source position is
    inside; [default] when there is none. *)
Fixpoint first_inside (size x : nat) (ps : list Z) (default : nat) : nat :=
  match ps with
  | [] => default
  | p :: ps' =>
      if inside size p then x else first_inside size (S x) ps' default
  end.

(** [xmax]: one more than the last target position whose source position
    is inside; [acc] when there is none. *)
Fixpoint after_last_inside (size x : nat) (ps : list Z) (acc : nat) : nat :=
  match ps with
  | [] => acc
  | p :: ps' =>
      after_last_inside size (S x) ps' (if inside size p then S x else acc)
  end.

(** [xintab[x]]: the source position when it is inside, and the 0 that
    [calloc] left otherwise. *)
Definition xintab (size : nat) (ps : list Z) (x : nat) : nat :=
  let p := nth x ps (-1)%Z in
  if inside size p then Z.to_nat p else 0.

(** The source column target column [x] is copied from, if any. *)
Definition column_of (src dst x : nat) : option nat :=
  let ps := positions src dst in
  if (first_inside src 0 ps dst <=? x) && (x <? after_last_inside src 0 ps 0)
  then Some (xintab src ps x)
  else None.

(** The source row target row [y] is copied from, if any. *)
Definition row_of (src dst y : nat) : option nat :=
  let yi := nth y (positions src dst) (-1)%Z in
  if (y <? dst) && inside src yi then Some (Z.to_nat yi) else None.

(** [ImagingScaleAffine(imOut, imIn, 0, 0, xsize, ysize, a, fill)]: each
    row of [imOut] is first zeroed when [fill] is set; then, when its
    source row is inside, the columns from [xmin] to [xmax] are copied
    from that row. *)
Definition ImagingScaleAffine (imOut imIn : Image) (fill : bool) : Image :=
  mkImage (im_mode imOut) (im_width imOut) (im_height imOut)
    (fun x y c =>
       if (x <? im_width imOut) && (y <? im_height imOut) then
         match row_of (im_height imIn) (im_height imOut) y,
               column_of (im_width imIn) (im_width imOut) x with
         | Some yi, Some xi => im_px imIn xi yi c
         | _, _ => if fill then Byte.x00 else im_px imOut x y c
         end
       else im_px imOut x y c).

(** [img.resize((w, h), NEAREST)]: a copy when the picture has that size;
    otherwise an empty target is refused, and the picture is scaled into
    a fresh buffer, which holds [dirty] before it is written. *)
Definition resize (dirty : nat -> nat -> nat -> Byte.byte) (img : Image)
  (w h : nat) : result Image :=
  if (im_width img =? w) && (im_height img =? h) then Ok img
  else if (w <? 1) || (h <? 1) then Raise (ValueError_size w h)
  else Ok (ImagingScaleAffine (mkImage (im_mode img) w h dirty) img true).

(** Keras's [load_img] once the file is decoded: with the default
    [color_mode='rgb'] the picture is converted unless it is RGB already;
    [target_size] is [(img_height, img_width)] and the picture is resized
    unless it has that size already. *)
Definition load_img_decoded (dirty : nat -> nat -> nat -> Byte.byte)
  (img : Image) (target_size : nat * nat) : result Image :=
  let img := match im_mode img with
             | RGB => img
             | _ => convert_RGB img
             end in
  let width_height_tuple := (snd target_size, fst target_size) in
  if (im_width img =? fst width_height_tuple)
     && (im_height img =? snd width_height_tuple)
  then Ok img
  else resize dirty img (fst width_height_tuple) (snd width_height_tuple).

(** Keras's [img_to_array]: a [float32] array of shape
    [(height, width, bands)], item [[y, x, c]] being the intensity of band
    [c] at column [x], row [y]. *)
Definition img_to_array (img : Image) : ndarray :=
  let sh := [im_height img; im_width img; bands (im_mode img)] in
  mkArray sh
          (fun idx =>
             if in_bounds sh idx then
               match idx with
               | [y; x; c] => Some (of_byte (im_px img x y c))
               | _ => None
               end
             else None).

(** ** TensorFlow Lite models *)

(** A compiled graph with one input and one scalar output: the shape of
    its input tensor and the number (a canonical float32, possibly a NaN
    or an infinity) it leaves at [[0][0]] of its output tensor when run on
    an input. *)
Record model : Type := mkModel {
  input_shape : list nat;
  infer : ndarray -> float32
}.

(** ** Machine state and events *)

Inductive model_file : Type :=
| NoModel                       (* no file, or not a TFLite flatbuffer *)
| ModelFile (m : model).

Inductive image_file : Type :=
| NoFile                        (* the path does not exist *)
| Directory                     (* the path is a directory *)
| NoPermission                  (* a file that may not be read *)
| NotAnImage                    (* a file PIL cannot identify *)
| Truncated                     (* an image file cut short *)
| Picture (img : Image).

(** The two widgets [App] writes to. *)
Record widgets : Type := mkWidgets {
  loading_label : string;
  output_text : string
}.

(** [garbage st w h] is what a fresh buffer of [w] by [h] pixels holds
    before anything is written to it. *)
Record state : Type := mkState {
  models : string -> model_file;
  images : string -> image_file;
  garbage : nat -> nat -> nat -> nat -> nat -> Byte.byte;
  ui : widgets
}.

Inductive event : Type :=
| EvInterpreter (model_path : string)
| EvAllocate (model_path : string)
| EvLoadImg (image_path : string) (target_size : nat * nat)
| EvSetTensor (model_path : string) (value : ndarray)
| EvInvoke (model_path : string)
| EvGetTensor (model_path : string) (p : float32)
| EvUncaught (e : exn).
    (* threading.excepthook: the traceback of a thread that died *)

(** ** The monad of the script *)

Record outcome (A : Type) : Type := mkOutcome {
  res : result A;
  emitted : list event;
  final : state
}.
Arguments mkOutcome {A} res emitted final.
Arguments res {A} o.
Arguments emitted {A} o.
Arguments final {A} o.

Definition M (A : Type) : Type := state -> outcome A.

Definition ret {A} (a : A) : M A := fun st => mkOutcome (Ok a) [] st.

Definition raise {A} (e : exn) : M A := fun st => mkOutcome (Raise e) [] st.

Definition bind {A B} (c : M A) (k : A -> M B) : M B :=
  fun st =>
    let o := c st in
    match res o with
    | Raise e => mkOutcome (Raise e) (emitted o) (final o)
    | Ok a =>
        let o' := k a (final o) in
        mkOutcome (res o') (emitted o ++ emitted o') (final o')
    end.

Definition lift {A} (r : result A) : M A := fun st => mkOutcome r [] st.

Definition emit (e : event) : M unit := fun st => mkOutcome (Ok tt) [e] st.

Definition get_state : M state := fun st => mkOutcome (Ok st) [] st.

Definition set_ui (w : widgets) : M unit :=
  fun st =>
    mkOutcome (Ok tt) [] (mkState (models st) (images st) (garbage st) w).

Declare Scope py_scope.
Delimit Scope py_scope with py.
Notation "x <- c ;; k" := (bind c (fun x => k))
  (at level 61, c at next level, right associativity) : py_scope.
Notation "c ;; k" := (bind c (fun _ => k))
  (at level 61, right associativity) : py_scope.
Local Open Scope py_scope.

(** ** The library calls of [predict] *)

(** Which tensor slot of an interpreter an ['index'] designates. *)
Inductive tensor_index : Type := InputSlot | OutputSlot.

Record tensor_details : Type := mkDetails { index : tensor_index }.

(** A [tf.lite.Interpreter] object: the graph it was built from and the
    contents of its two tensor slots. The object is local to one call of
    [predict]; its updates are written as rebinding. *)
Record Interpreter : Type := mkInterpreter {
  ip_path : string;
  ip_model : model;
  ip_input : option ndarray;
  ip_output : option float32
}.

(** [tf.lite.Interpreter(model_path=model_path)] *)
Definition Interpreter_new (model_path : string) : M Interpreter :=
  emit (EvInterpreter model_path) ;;
  st <- get_state ;;
  match models st model_path with
  | NoModel => raise (ValueError_model model_path)
  | ModelFile m => ret (mkInterpreter model_path m None None)
  end.

Definition allocate_tensors (interpreter : Interpreter) : M unit :=
  emit (EvAllocate (ip_path interpreter)).

Definition get_input_details (interpreter : Interpreter)
  : list tensor_details := [mkDetails InputSlot].

Definition get_output_details (interpreter : Interpreter)
  : list tensor_details := [mkDetails OutputSlot].

(** [details[0]['index']] *)
Definition index0 (details : list tensor_details) : tensor_index :=
  index (hd (mkDetails InputSlot) details).

(** [load_img(image_path, target_size=shape)]. The data of a picture is
    read when it is first needed: for an image cut short this is in
    [load_img] when the picture is converted or resized, and one line
    later, in [img_to_array], when it is neither; no call lies between
    the two. *)
Definition load_img (image_path : string) (target_size : nat * nat)
  : M Image :=
  emit (EvLoadImg image_path target_size) ;;
  st <- get_state ;;
  match images st image_path with
  | NoFile => raise (FileNotFoundError image_path)
  | Directory => raise (IsADirectoryError image_path)
  | NoPermission => raise (PermissionError image_path)
  | NotAnImage => raise (UnidentifiedImageError image_path)
  | Truncated => raise (OSError_truncated image_path)
  | Picture img =>
      lift (load_img_decoded
              (garbage st (snd target_size) (fst target_size))
              img target_size)
  end.

(** The check [set_tensor] makes: the value has the shape of the input
    tensor of the graph. *)
Definition accepts (m : model) (value : ndarray) : bool :=
  shape_eqb (arr_shape value) (input_shape m).
Arguments accepts : simpl never.

(** [interpreter.set_tensor(i, value)]: accepted on the input slot, for a
    value of the expected shape. *)
Definition set_tensor (interpreter : Interpreter) (i : tensor_index)
  (value : ndarray) : M Interpreter :=
  emit (EvSetTensor (ip_path interpreter) value) ;;
  match i with
  | OutputSlot =>
      raise (ValueError_dimension (ip_path interpreter) (arr_shape value) [])
  | InputSlot =>
      if accepts (ip_model interpreter) value
      then ret (mkInterpreter (ip_path interpreter) (ip_model interpreter)
                              (Some value) (ip_output interpreter))
      else raise (ValueError_dimension (ip_path interpreter)
                    (arr_shape value)
                    (input_shape (ip_model interpreter)))
  end.

(** [interpreter.invoke()]: runs the graph on the input slot. *)
Definition invoke (interpreter : Interpreter) : M Interpreter :=
  emit (EvInvoke (ip_path interpreter)) ;;
  ret (mkInterpreter (ip_path interpreter) (ip_model interpreter)
         (ip_input interpreter)
         (option_map (infer (ip_model interpreter)) (ip_input interpreter))).

(** [interpreter.get_tensor(i)[0][0]]: the scalar in the output slot;
    NaN stands for a slot nothing was written to. *)
Definition get_tensor00 (interpreter : Interpreter) (i : tensor_index)
  : M float32 :=
  let p := match i, ip_output interpreter with
           | OutputSlot, Some p => p
           | _, _ => S754_nan
           end in
  emit (EvGetTensor (ip_path interpreter) p) ;;
  ret p.

(** ** The pipeline *)

(** Line 38: [1 if predictions[0][0] > 0.5 else 0]. *)
Definition threshold (p : float32) : Z := if gt p half then 1%Z else 0%Z.

Definition predict (image_path : string) (shape : nat * nat)
  (model_path : string) : M Z :=
  interpreter <- Interpreter_new model_path ;;
  allocate_tensors interpreter ;;
  let input_details := get_input_details interpreter in
  let output_details := get_output_details interpreter in
  image <- load_img image_path shape ;;
  let image := div_scalar (img_to_array image) c255 in
  let image := newaxis image in
  interpreter <- set_tensor interpreter (index0 input_details) image ;;
  interpreter <- invoke interpreter ;;
  predictions00 <- get_tensor00 interpreter (index0 output_details) ;;
  let predicted_class := threshold predictions00 in
  ret predicted_class.

Definition shape1 : nat * nat := (224, 224).
Definition shape2 : nat * nat := (299, 299).
Definition model_1_path : string := "model1.tflite".
Definition model_2_path : string := "model2.tflite".

Definition diagnose (image_path : string) : M string :=
  class1 <- predict image_path shape1 model_1_path ;;
  if (class1 =? 1)%Z then ret "n"
  else
    class2 <- predict image_path shape2 model_2_path ;;
    if (class2 =? 0)%Z then ret "b" else ret "m".

(** ** The application *)

(** [s.split(sep)] for a one-character separator. *)
Fixpoint split (sep : ascii) (s : string) : list string :=
  match s with
  | EmptyString => [EmptyString]
  | String c s' =>
      if Ascii.eqb c sep then EmptyString :: split sep s'
      else match split sep s' with
           | [] => [String c EmptyString]
           | piece :: pieces => String c piece :: pieces
           end
  end.

Module App.

Definition display_loading : M unit :=
  st <- get_state ;;
  set_ui (mkWidgets "Loading..." (output_text (ui st))).

Definition display_output (text : string) : M unit :=
  set_ui (mkWidgets "" text).

(** Lines 135 to 143: the text shown for a label. *)
Definition res_of (result : string) : string :=
  if String.eqb result "n" then "Normal"
  else if String.eqb result "b" then "Benign"
  else if String.eqb result "m" then "Malignant"
  else "Error".

Definition run_diagnosis (image_path : string) : M unit :=
  result <- diagnose image_path ;;
  let res := res_of result in
  display_output res.

(** [threading.Thread(target=..., args=...).start()]: the body runs to its
    end; an exception it raises ends the thread with a traceback and does
    not reach the caller. The caller returns to the event loop and touches
    nothing meanwhile, so the body is run in place. *)
Definition Thread_start (target : M unit) : M unit :=
  fun st =>
    let o := target st in
    match res o with
    | Ok _ => mkOutcome (Ok tt) (emitted o) (final o)
    | Raise e => mkOutcome (Ok tt) (emitted o ++ [EvUncaught e]) (final o)
    end.

(** [upload_image], given the answer [file_path] of the file dialog (the
    empty string when the dialog is cancelled). *)
Definition upload_image (file_path : string) : M unit :=
  if negb (String.eqb file_path "") then
    display_loading ;;
    let image_name := last (split "/" file_path) "" in
    let image_path := String.append "./Testing/" image_name in
    Thread_start (run_diagnosis image_path)
  else ret tt.

End App.

(** ** Observations used in the statements *)

(** The value lines 33 and 34 compute from the picture [load_img]
    returned: [img_to_array(image) / 255.0] under a new leading axis. *)
Definition tensor_of (image : Image) : ndarray :=
  newaxis (div_scalar (img_to_array image) c255).
Arguments tensor_of : simpl never.

(** The intensity, in the picture [load_img] returns for the file's
    picture [img] and the target [(height, width)], of band [c] at column
    [x], row [y]: the file's own pixel when the picture has the target
    size; otherwise the pixel of the source row and column Pillow copies
    from, and 0 where it copies nothing. A grey picture has its one level
    on every band. *)
Definition loaded_intensity (img : Image) (target_size : nat * nat)
  (x y c : nat) : Byte.byte :=
  let band := match im_mode img with L => 0 | _ => c end in
  if (im_width img =? snd target_size) && (im_height img =? fst target_size)
  then im_px img x y band
  else
    match row_of (im_height img) (fst target_size) y,
          column_of (im_width img) (snd target_size) x with
    | Some yi, Some xi => im_px img xi yi band
    | _, _ => Byte.x00
    end.

(** The centre rule in exact arithmetic: the source position under the
    centre of target position [x]. Pillow's doubles depart from it where
    a centre falls on the edge between two source pixels. *)
Definition centre_rule (src dst x : nat) : nat :=
  ((2 * x + 1) * src) / (2 * dst).

(** The target positions, among the [dst] of an axis, where Pillow's
    source position is not the one of the centre rule. *)
Definition off_centre (src dst : nat) : list nat :=
  filter (fun x => negb (Z.eqb (nth x (positions src dst) (-1)%Z)
                               (Z.of_nat (centre_rule src dst x))))
         (seq 0 dst).

(** The events only the second stage leaves: a call on the second model,
    or a load at the second resolution. *)
Definition stage2_event (e : event) : bool :=
  match e with
  | EvInterpreter mp | EvAllocate mp | EvSetTensor mp _
  | EvInvoke mp | EvGetTensor mp _ => String.eqb mp model_2_path
  | EvLoadImg _ sh => (fst sh =? fst shape2) && (snd sh =? snd shape2)
  | EvUncaught _ => false
  end.

(** ** Sample states *)

(** A graph with a square input that answers [p] whatever it is given. *)
Definition constant_model (side : nat) (p : float32) : model :=
  mkModel [1; side; side; 3] (fun _ => p).

(** A grey picture, 4 pixels wide and 2 high, with a dark and a light
    column alternating. *)
Definition fixture_image : Image :=
  mkImage L 4 2 (fun x _ _ => if Nat.even x then Byte.x33 else Byte.xcc).

(** Both models in place, answering [p1] and [p2], and one picture, at
    [image_path]. *)
Definition fixture (p1 p2 : float32) (image_path : string) : state :=
  mkState
    (fun p =>
       if String.eqb p model_1_path then ModelFile (constant_model 224 p1)
       else if String.eqb p model_2_path
            then ModelFile (constant_model 299 p2)
            else NoModel)
    (fun p => if String.eqb p image_path then Picture fixture_image
              else NoFile)
    (fun _ _ _ _ _ => Byte.x00)
    (mkWidgets "" "").

(** No model file and no picture at all. *)
Definition empty_disk : state :=
  mkState (fun _ => NoModel) (fun _ => NoFile) (fun _ _ _ _ _ => Byte.x00)
          (mkWidgets "" "").

(** A colour picture, 299 by 299, whose intensity grows with the column. *)
Definition gradient_image : Image :=
  mkImage RGB 299 299
          (fun x _ _ => match Byte.of_nat (x mod 256) with
                        | Some b => b
                        | None => Byte.x00
                        end).

(** The state with other contents of fresh buffers and other widgets. *)
Definition with_garbage (st : state)
  (g : nat -> nat -> nat -> nat -> nat -> Byte.byte) (w : widgets) : state :=
  mkState (models st) (images st) g w.

(** The float32 nearest to [n / d]. *)
Definition ratio (n d : Z) : float32 := div (of_Z n) (of_Z d).

(** The first model in place, answering [p1], no second model, and one
    picture, at [image_path]. *)
Definition fixture_without_model2 (p1 : float32) (image_path : string)
  : state :=
  mkState
    (fun p =>
       if String.eqb p model_1_path then ModelFile (constant_model 224 p1)
       else NoModel)
    (fun p => if String.eqb p image_path then Picture fixture_image
              else NoFile)
    (fun _ _ _ _ _ => Byte.x00)
    (mkWidgets "" "").


(** ** Strings and sessions *)

(** [sep.join(pieces)] for a one-character separator. *)
Fixpoint join (sep : ascii) (pieces : list string) : string :=
  match pieces with
  | [] => EmptyString
  | [piece] => piece
  | piece :: rest => String.append piece (String sep (join sep rest))
  end.

(** [c in s] *)
Fixpoint contains (c : ascii) (s : string) : bool :=
  match s with
  | EmptyString => false
  | String c' s' => Ascii.eqb c' c || contains c s'
  end.

(** [s.count(c)] *)
Fixpoint count (c : ascii) (s : string) : nat :=
  match s with
  | EmptyString => 0
  | String c' s' => (if Ascii.eqb c' c then 1 else 0) + count c s'
  end.

(** [app.mainloop()] over the clicks on the upload button, each given the
    answer of its file dialog, each click made once the diagnosis of the
    previous one is over. *)
Fixpoint mainloop (answers : list string) : M unit :=
  match answers with
  | [] => ret tt
  | file_path :: rest => App.upload_image file_path ;; mainloop rest
  end.

(** The state with other widgets. *)
Definition with_ui (st : state) (w : widgets) : state :=
  mkState (models st) (images st) (garbage st) w.

(** The three texts of a diagnosis. *)
Definition is_diagnosis_text (text : string) : Prop :=
  text = "Normal" \/ text = "Benign" \/ text = "Malignant".

(** What the window can show: the label empty or on "Loading...", the
    text empty or a diagnosis text. *)
Definition displayable (w : widgets) : Prop :=
  (loading_label w = "" \/ loading_label w = "Loading...")
  /\ (output_text w = "" \/ is_diagnosis_text (output_text w)).

(** ** Normalised intensities *)

(** What line 33 makes of an 8-bit intensity. *)
Definition normalised (b : Byte.byte) : float32 := div (of_byte b) c255.

(** The 256 intensities, each with its normalised value. *)
Definition intensity_table : list (N * float32) :=
  map (fun n => (N.of_nat n, div (of_Z (Z.of_nat n)) c255)) (seq 0 256).

(** On a table, the floats are ordered as the intensities are. *)
Definition order_kept (table : list (N * float32)) : bool :=
  forallb (fun a =>
             forallb (fun b =>
                        Bool.eqb (SFltb (snd a) (snd b))
                                 (fst a <? fst b)%N)
                     table)
          table.

(** ** The window, widget by widget *)

(** The methods of [App] that build and update the window, on the
    widgets themselves: a label, and a text widget with its content, its
    tags and its state. Tk keeps a final newline in a text widget, which
    [delete] cannot remove and which carries tags like any character;
    [insert] and [delete] do nothing on a disabled widget. *)
Module TkApp.

Inductive widget_state : Type := NORMAL | DISABLED.

Record Button : Type := mkButton { bt_text : string }.

Record Label : Type := mkLabel {
  lb_text : string;
  lb_font : string * nat
}.

Record Text : Type := mkText {
  tx_chars : list (ascii * list string);
    (* each character before the final newline, with its tags *)
  tx_eol_tags : list string;
    (* the tags of the final newline *)
  tx_state : widget_state;
  tx_wrap : string;
  tx_height : nat;
  tx_justify : list (string * string)
    (* the justify option of the configured tags *)
}.

Record window : Type := mkWindow {
  title : string;
  geometry : string;
  upload_button : Button;
  loading_label : Label;
  output_text : Text
}.

(** [label.config(text=s)] *)
Definition label_config_text (l : Label) (s : string) : Label :=
  mkLabel s (lb_font l).

(** [text.config(state=s)] *)
Definition text_config_state (t : Text) (s : widget_state) : Text :=
  mkText (tx_chars t) (tx_eol_tags t) s (tx_wrap t) (tx_height t)
         (tx_justify t).

(** [text.delete(1.0, tk.END)] *)
Definition text_delete_all (t : Text) : Text :=
  match tx_state t with
  | DISABLED => t
  | NORMAL =>
      mkText [] (tx_eol_tags t) NORMAL (tx_wrap t) (tx_height t)
             (tx_justify t)
  end.

(** [text.insert(tk.END, s)]: the new characters go before the final
    newline and get the tags present on both sides of that point. *)
Definition text_insert_end (t : Text) (s : string) : Text :=
  match tx_state t with
  | DISABLED => t
  | NORMAL =>
      let inherited :=
        match rev (tx_chars t) with
        | [] => []
        | (_, tags) :: _ =>
            filter (fun tag => existsb (String.eqb tag) (tx_eol_tags t)) tags
        end in
      mkText (tx_chars t
              ++ map (fun c => (c, inherited)) (list_ascii_of_string s))
             (tx_eol_tags t) NORMAL (tx_wrap t) (tx_height t)
             (tx_justify t)
  end.

Definition add_tag (tag : string) (tags : list string) : list string :=
  if existsb (String.eqb tag) tags then tags else tag :: tags.

(** [text.tag_add(tag, "1.0", "end")] *)
Definition text_tag_add_all (t : Text) (tag : string) : Text :=
  mkText (map (fun ch => (fst ch, add_tag tag (snd ch))) (tx_chars t))
         (add_tag tag (tx_eol_tags t)) (tx_state t) (tx_wrap t)
         (tx_height t) (tx_justify t).

(** [text.tag_configure(tag, justify=j)] *)
Definition text_tag_configure (t : Text) (tag j : string) : Text :=
  mkText (tx_chars t) (tx_eol_tags t) (tx_state t) (tx_wrap t)
         (tx_height t)
         ((tag, j)
            :: filter (fun o => negb (String.eqb (fst o) tag)) (tx_justify t)).

(** [text.get("1.0", "end-1c")] *)
Definition content (t : Text) : string :=
  string_of_list_ascii (map fst (tx_chars t)).

(** The justification of a character: that of the first of its tags
    that sets one. *)
Definition justify_of (t : Text) (tags : list string) : option string :=
  match filter (fun o => existsb (String.eqb (fst o)) tags) (tx_justify t)
  with
  | [] => None
  | o :: _ => Some (snd o)
  end.

(** The three widgets [create_widgets] makes. *)
Definition create_widgets : Button * Label * Text :=
  let upload_button := mkButton "Upload Image" in
  let loading_label := mkLabel "" ("Helvetica", 16) in
  let output_text := mkText [] [] NORMAL "word" 10 [] in
  let output_text := text_config_state output_text DISABLED in
  (upload_button, loading_label, output_text).

(** [App()] *)
Definition init : window :=
  let '(upload_button, loading_label, output_text) := create_widgets in
  mkWindow "Multi-Stage Diagnosis" "400x400"
           upload_button loading_label output_text.

Definition display_loading (self : window) : window :=
  mkWindow (title self) (geometry self) (upload_button self)
           (label_config_text (loading_label self) "Loading...")
           (output_text self).

Definition display_output (self : window) (text : string) : window :=
  let loading_label := label_config_text (loading_label self) "" in
  let output_text := text_config_state (output_text self) NORMAL in
  let output_text := text_delete_all output_text in
  let output_text := text_insert_end output_text text in
  let output_text := text_tag_add_all output_text "center" in
  let output_text := text_tag_configure output_text "center" "center" in
  let output_text := text_config_state output_text DISABLED in
  mkWindow (title self) (geometry self) (upload_button self)
           loading_label output_text.

(** A call of one of the two display methods. *)
Inductive call : Type :=
| Loading
| Output (text : string).

Definition step (self : window) (c : call) : window :=
  match c with
  | Loading => display_loading self
  | Output text => display_output self text
  end.

(** The text of the last [Output] among the calls, if any. *)
Fixpoint last_output (calls : list call) (default : string) : string :=
  match calls with
  | [] => default
  | Loading :: rest => last_output rest default
  | Output text :: rest => last_output rest text
  end.

(** What the window shows, as the two strings of [widgets]. *)
Definition shown (self : window) : widgets :=
  mkWidgets (lb_text (loading_label self)) (content (output_text self)).

End TkApp.

(** * Properties *)

(** ** Comparison of floats *)

Lemma SFcompare_antisym (x y : spec_float) :
  SFcompare y x = option_map CompOpp (SFcompare x y).
Proof.
  destruct x as [sx | sx | | sx mx ex], y as [sy | sy | | sy my ey];
    try destruct sx; try destruct sy; try reflexivity; simpl;
    rewrite (Z.compare_antisym ey ex);
    destruct (ey ?= ex)%Z; simpl; try reflexivity;
    rewrite (Pos.compare_cont_antisym mx my Eq); simpl;
    destruct (Pos.compare_cont Eq my mx); reflexivity.
Qed.

Lemma gt_not_le (p q : float32) : gt p q = true -> le p q = false.
Proof.
  unfold gt, le, SFltb, SFleb. rewrite (SFcompare_antisym p q).
  destruct (SFcompare p q) as [[ | | ] | ]; simpl; congruence.
Qed.

Lemma le_not_gt (p q : float32) : le p q = true -> gt p q = false.
Proof.
  intros H. destruct (gt p q) eqn:G; [ | reflexivity].
  apply gt_not_le in G. congruence.
Qed.

Lemma not_gt_le (p q : float32) :
  is_nan p = false -> is_nan q = false -> gt p q = false -> le p q = true.
Proof.
  unfold gt, le, SFltb, SFleb. rewrite (SFcompare_antisym p q).
  destruct (SFcompare p q) as [[ | | ] | ] eqn:E; simpl; try congruence.
  intros. destruct p, q; simpl in *; congruence.
Qed.

Lemma threshold_cases (p : float32) :
  (threshold p = 1%Z /\ gt p half = true)
  \/ (threshold p = 0%Z /\ gt p half = false).
Proof. unfold threshold. destruct (gt p half); auto. Qed.

(** ** One call of [predict], case by case *)

Lemma predict_unfold (image_path : string) (shape : nat * nat)
  (model_path : string) (st : state) :
  predict image_path shape model_path st =
  match models st model_path with
  | NoModel =>
      mkOutcome (Raise (ValueError_model model_path))
                [EvInterpreter model_path] st
  | ModelFile m =>
      let pre := [EvInterpreter model_path; EvAllocate model_path;
                  EvLoadImg image_path shape] in
      match images st image_path with
      | NoFile => mkOutcome (Raise (FileNotFoundError image_path)) pre st
      | Directory => mkOutcome (Raise (IsADirectoryError image_path)) pre st
      | NoPermission => mkOutcome (Raise (PermissionError image_path)) pre st
      | NotAnImage =>
          mkOutcome (Raise (UnidentifiedImageError image_path)) pre st
      | Truncated => mkOutcome (Raise (OSError_truncated image_path)) pre st
      | Picture img =>
          match load_img_decoded (garbage st (snd shape) (fst shape))
                                 img shape with
          | Raise e => mkOutcome (Raise e) pre st
          | Ok image =>
              let t := tensor_of image in
              if accepts m t
              then mkOutcome (Ok (threshold (infer m t)))
                     (pre ++ [EvSetTensor model_path t; EvInvoke model_path;
                              EvGetTensor model_path (infer m t)]) st
              else mkOutcome
                     (Raise (ValueError_dimension model_path (arr_shape t)
                               (input_shape m)))
                     (pre ++ [EvSetTensor model_path t]) st
          end
      end
  end.
Proof.
  cbv beta iota zeta delta
    [predict Interpreter_new allocate_tensors load_img set_tensor invoke
     get_tensor00 get_input_details get_output_details index0 index hd
     bind emit get_state ret raise lift res emitted final
     ip_path ip_model ip_input ip_output option_map app tensor_of].
  destruct (models st model_path) as [ | m]; [reflexivity | ].
  destruct (images st image_path) as [ | | | | | img]; try reflexivity.
  destruct (load_img_decoded _ img shape) as [image | e]; [ | reflexivity].
  destruct (accepts m _); reflexivity.
Qed.

(** Splits a goal about [predict] into the cases of the call: model
    file, image file, resizing, shape check. *)
Ltac predict_cases :=
  rewrite ?predict_unfold; cbv zeta;
  repeat match goal with
    | |- context [match models ?st ?p with _ => _ end] =>
        let E := fresh "Emodel" in destruct (models st p) eqn:E
    | |- context [match images ?st ?p with _ => _ end] =>
        let E := fresh "Eimage" in destruct (images st p) eqn:E
    | |- context [match load_img_decoded ?d ?i ?sh with _ => _ end] =>
        let E := fresh "Eload" in
        let im := fresh "image" in
        let err := fresh "err" in
        destruct (load_img_decoded d i sh) as [im | err] eqn:E
    | |- context [if accepts ?m ?t then _ else _] =>
        let E := fresh "Eshape" in destruct (accepts m t) eqn:E
    end.

Lemma predict_final (image_path : string) (shape : nat * nat)
  (model_path : string) (st : state) :
  final (predict image_path shape model_path st) = st.
Proof. predict_cases; reflexivity. Qed.

Lemma predict_class (image_path : string) (shape : nat * nat)
  (model_path : string) (st : state) (c : Z) :
  res (predict image_path shape model_path st) = Ok c ->
  c = 0%Z \/ c = 1%Z.
Proof.
  predict_cases; cbn [res]; try discriminate.
  intros [= <-]. destruct (threshold_cases (infer m (tensor_of image)))
    as [[-> _] | [-> _]]; auto.
Qed.

(** ** [diagnose], case by case *)

Lemma diagnose_unfold (image_path : string) (st : state) :
  diagnose image_path st =
  let o1 := predict image_path shape1 model_1_path st in
  match res o1 with
  | Raise e => mkOutcome (Raise e) (emitted o1) st
  | Ok class1 =>
      if (class1 =? 1)%Z then mkOutcome (Ok "n") (emitted o1) st
      else
        let o2 := predict image_path shape2 model_2_path st in
        match res o2 with
        | Raise e => mkOutcome (Raise e) (emitted o1 ++ emitted o2) st
        | Ok class2 =>
            mkOutcome (Ok (if (class2 =? 0)%Z then "b" else "m"))
                      (emitted o1 ++ emitted o2) st
        end
  end.
Proof.
  unfold diagnose, bind. cbv zeta.
  rewrite (predict_final image_path shape1 model_1_path st).
  destruct (res (predict image_path shape1 model_1_path st)) as [c1 | e];
    [ | reflexivity].
  destruct (c1 =? 1)%Z.
  - simpl. rewrite app_nil_r. reflexivity.
  - simpl. rewrite (predict_final image_path shape2 model_2_path st).
    destruct (res (predict image_path shape2 model_2_path st)) as [c2 | e];
      [ | reflexivity].
    destruct (c2 =? 0)%Z; simpl; rewrite app_nil_r; reflexivity.
Qed.

Lemma diagnose_final (image_path : string) (st : state) :
  final (diagnose image_path st) = st.
Proof.
  rewrite diagnose_unfold. cbv zeta.
  destruct (res (predict image_path shape1 model_1_path st)) as [c1 | e];
    [ | reflexivity].
  destruct (c1 =? 1)%Z; [reflexivity | ].
  destruct (res (predict image_path shape2 model_2_path st)); reflexivity.
Qed.

Ltac threshold_case p :=
  let Ec := fresh "Eclass" in
  let Eg := fresh "Egt" in
  destruct (threshold_cases p) as [[Ec Eg] | [Ec Eg]]; rewrite ?Ec in *.

(** Splits a goal about [diagnose] into the cases of its two calls of
    [predict] and of their thresholds. *)
Ltac diagnose_cases :=
  rewrite ?diagnose_unfold; cbv zeta; predict_cases; cbn [res emitted final];
  repeat match goal with
    | |- context [threshold ?p] => threshold_case p; cbn [Z.eqb Pos.eqb]
    end;
  cbn [res emitted final app].

Ltac in_events :=
  repeat match goal with
    | H : In _ (_ :: _) |- _ => destruct H as [H | H]
    | H : In _ [] |- _ => destruct H
    | H : @eq event _ _ |- _ => inversion H; clear H; subst
    end.

(** C1. [diagnose] makes the second call of [predict] exactly when the
    first call returns class 0; when the first call returns class 1 it
    returns ['n'] and leaves no event of the second stage: no call on the
    second model and no load at the second resolution. The class is 1
    exactly when the number read from the first model is greater than
    0.5, which for a number that is not a NaN is the negation of being at
    most 0.5. *)
Theorem diagnose_stage2_iff_class0 (st : state) (image_path : string) :
  let o1 := predict image_path shape1 model_1_path st in
  let o := diagnose image_path st in
  (In (EvInterpreter model_2_path) (emitted o) <-> res o1 = Ok 0%Z)
  /\ (res o1 = Ok 1%Z ->
      res o = Ok "n"
      /\ emitted o = emitted o1
      /\ forall e, In e (emitted o) -> stage2_event e = false)
  /\ (forall p1, In (EvGetTensor model_1_path p1) (emitted o) ->
      (res o1 = Ok 0%Z <-> gt p1 half = false)
      /\ (res o1 = Ok 1%Z <-> gt p1 half = true)
      /\ (le p1 half = true -> res o1 = Ok 0%Z)
      /\ (is_nan p1 = false -> res o1 = Ok 0%Z -> le p1 half = true)).
Proof.
  cbv zeta. split; [ | split].
  - diagnose_cases; split; intros H; in_events; try discriminate;
      try reflexivity; try (do 6 right; left; reflexivity).
  - diagnose_cases; intros H; try discriminate;
      (split; [reflexivity | split; [reflexivity | ] ]);
      intros ev Hev; in_events; subst; reflexivity.
  - intros p1. diagnose_cases; intros H; in_events;
      repeat split; intros; try congruence; try discriminate;
      try (apply le_not_gt in H; congruence);
      try (apply not_gt_le; [assumption | reflexivity | assumption]).
Qed.

(** C2. When the number read from the first model is at most 0.5,
    [diagnose] returns ['b'] if the number read from the second model is
    at most 0.5 and ['m'] if it is greater than 0.5. *)
Theorem diagnose_benign_malignant (st : state) (image_path : string)
  (p1 p2 : float32) :
  let o := diagnose image_path st in
  In (EvGetTensor model_1_path p1) (emitted o) ->
  le p1 half = true ->
  In (EvGetTensor model_2_path p2) (emitted o) ->
  (le p2 half = true -> res o = Ok "b")
  /\ (gt p2 half = true -> res o = Ok "m").
Proof.
  cbv zeta. diagnose_cases; intros H1 Hle1 H2; in_events;
    try (apply le_not_gt in Hle1; congruence);
    split; intros Hp2; try reflexivity;
    try (apply le_not_gt in Hp2); congruence.
Qed.

(** C3. The threshold is a strict comparison in both stages: a call of
    [predict] that reads the number [p] returns 1 exactly when [p > 0.5];
    on exactly 0.5 it returns 0, on the next float above 0.5 it returns 1.
    So when the first model yields exactly 0.5, [diagnose] goes on to the
    second stage, and when the second model yields exactly 0.5 it returns
    ['b']. *)
Theorem threshold_strict_at_half :
  threshold half = 0%Z
  /\ threshold (SFsucc prec emax half) = 1%Z
  /\ (forall p, threshold p = 1%Z <-> gt p half = true)
  /\ (forall st image_path shape model_path p,
        In (EvGetTensor model_path p)
           (emitted (predict image_path shape model_path st)) ->
        res (predict image_path shape model_path st) = Ok (threshold p))
  /\ (forall st image_path,
        let o := diagnose image_path st in
        (In (EvGetTensor model_1_path half) (emitted o) ->
         In (EvInterpreter model_2_path) (emitted o))
        /\ (In (EvGetTensor model_2_path half) (emitted o) ->
            res o = Ok "b")).
Proof.
  split; [reflexivity | split; [reflexivity | split; [ | split] ] ].
  - intros p. destruct (threshold_cases p) as [[-> ->] | [-> ->]];
      split; intros; congruence.
  - intros st image_path shape model_path p.
    predict_cases; cbn [res emitted app]; intros H; in_events; reflexivity.
  - intros st image_path. cbv zeta. split.
    + diagnose_cases; intros H; in_events;
        try (do 6 right; left; reflexivity);
        match goal with
        | Hg : gt ?p half = true, He : ?p = half |- _ =>
            rewrite He in Hg; discriminate Hg
        | Hg : gt ?p half = true, He : half = ?p |- _ =>
            rewrite <- He in Hg; discriminate Hg
        end.
    + diagnose_cases; intros H; in_events; try reflexivity;
        match goal with
        | Hg : gt ?p half = true, He : ?p = half |- _ =>
            rewrite He in Hg; discriminate Hg
        | Hg : gt ?p half = true, He : half = ?p |- _ =>
            rewrite <- He in Hg; discriminate Hg
        end.
Qed.

(** ** The tensor handed to the interpreter *)

Lemma load_img_decoded_size (dirty : nat -> nat -> nat -> Byte.byte)
  (img image : Image) (h w : nat) :
  load_img_decoded dirty img (h, w) = Ok image ->
  im_mode image = RGB /\ im_width image = w /\ im_height image = h.
Proof.
  unfold load_img_decoded, convert_RGB, resize, ImagingScaleAffine.
  cbn [fst snd].
  destruct (im_mode img) eqn:Emode; cbn [im_width im_height im_mode];
    destruct ((im_width img =? w) && (im_height img =? h)) eqn:Esize;
    try destruct ((w <? 1) || (h <? 1)); intros [= <-];
    cbn [im_width im_height im_mode];
    try (apply andb_true_iff in Esize as [Ew Eh];
         apply Nat.eqb_eq in Ew; apply Nat.eqb_eq in Eh);
    auto.
Qed.

(** A non-empty target is never refused. *)
Lemma load_img_decoded_ok (dirty : nat -> nat -> nat -> Byte.byte)
  (img : Image) (h w : nat) :
  0 < h -> 0 < w ->
  exists image, load_img_decoded dirty img (h, w) = Ok image.
Proof.
  intros Hh Hw. unfold load_img_decoded, resize. cbn [fst snd].
  assert (Hz : (w <? 1) || (h <? 1) = false).
  { apply orb_false_iff. split; apply Nat.ltb_ge; lia. }
  rewrite Hz. destruct (_ && _); eauto.
Qed.

(** Whether the load is refused does not depend on what the fresh buffer
    holds. *)
Lemma load_img_decoded_raise
  (dirty dirty' : nat -> nat -> nat -> Byte.byte) (img : Image) (shape : nat * nat) (e : exn) :
  load_img_decoded dirty img shape = Raise e ->
  load_img_decoded dirty' img shape = Raise e.
Proof.
  unfold load_img_decoded, resize. cbv zeta.
  repeat match goal with
    | |- context [if ?c then _ else _] => destruct c
    end; intros H; try discriminate H; exact H.
Qed.

(** The pixels of the loaded picture, inside it. *)
Lemma load_img_decoded_px (dirty : nat -> nat -> nat -> Byte.byte)
  (img image : Image) (h w : nat) :
  load_img_decoded dirty img (h, w) = Ok image ->
  forall x y c, x < w -> y < h ->
    im_px image x y c = loaded_intensity img (h, w) x y c.
Proof.
  unfold load_img_decoded, loaded_intensity, convert_RGB, resize,
    ImagingScaleAffine.
  cbn [fst snd].
  destruct (im_mode img) eqn:Emode; cbn [im_width im_height im_mode im_px];
    destruct ((im_width img =? w) && (im_height img =? h)) eqn:Esize;
    try destruct ((w <? 1) || (h <? 1));
    intros [= <-] x y c Hx Hy; cbn [im_px im_width im_height];
    try reflexivity;
    apply Nat.ltb_lt in Hx, Hy; rewrite Hx, Hy; cbn [andb];
    destruct (row_of _ _ _); try reflexivity;
    destruct (column_of _ _ _); reflexivity.
Qed.

(** *** Source positions lie inside the source *)

Lemma inside_lt (size : nat) (p : Z) :
  inside size p = true -> Z.to_nat p < size.
Proof.
  unfold inside. intros H. apply andb_true_iff in H as [H0 H1].
  apply Z.leb_le in H0. apply Z.ltb_lt in H1. lia.
Qed.

Lemma row_of_inside (src dst y yi : nat) :
  row_of src dst y = Some yi -> yi < src.
Proof.
  unfold row_of. cbv zeta.
  destruct ((y <? dst) && _) eqn:E; [ | discriminate].
  intros [= <-]. apply andb_true_iff in E as [_ E]. exact (inside_lt _ _ E).
Qed.

Lemma inside_empty (p : Z) : inside 0 p = false.
Proof.
  unfold inside. destruct (0 <=? p)%Z eqn:E0; [ | reflexivity].
  apply Z.leb_le in E0. cbn [andb]. apply Z.ltb_ge. cbn. exact E0.
Qed.

Lemma after_last_inside_empty (x : nat) (ps : list Z) (acc : nat) :
  after_last_inside 0 x ps acc = acc.
Proof.
  revert x acc. induction ps as [ | p ps IH]; intros x acc;
    [reflexivity | ].
  cbn [after_last_inside]. rewrite inside_empty. apply IH.
Qed.

Lemma column_of_inside (src dst x xi : nat) :
  column_of src dst x = Some xi -> xi < src.
Proof.
  unfold column_of. cbv zeta.
  destruct (_ && _) eqn:E; [ | discriminate]. intros [= <-].
  apply andb_true_iff in E as [_ E]. apply Nat.ltb_lt in E.
  destruct src as [ | src'].
  - rewrite after_last_inside_empty in E. lia.
  - unfold xintab. cbv zeta.
    destruct (inside (S src') _) eqn:Ei; [exact (inside_lt _ _ Ei) | lia].
Qed.

(** An intensity of the loaded picture is the 0 of the fill or an
    intensity of the file's picture, taken inside it. *)
Lemma loaded_intensity_source (img : Image) (h w x y c : nat) :
  x < w -> y < h -> c < 3 ->
  loaded_intensity img (h, w) x y c = Byte.x00
  \/ exists x' y' c',
       x' < im_width img /\ y' < im_height img
       /\ c' < bands (im_mode img)
       /\ loaded_intensity img (h, w) x y c = im_px img x' y' c'.
Proof.
  intros Hx Hy Hc. unfold loaded_intensity. cbn [fst snd].
  assert (Hband : (match im_mode img with L => 0 | _ => c end)
                  < bands (im_mode img)).
  { destruct (im_mode img); cbn [bands]; lia. }
  destruct ((im_width img =? w) && (im_height img =? h)) eqn:Esize.
  - apply andb_true_iff in Esize as [Ew Eh].
    apply Nat.eqb_eq in Ew, Eh. right.
    exists x, y, (match im_mode img with L => 0 | _ => c end).
    split; [lia | split; [lia | split; [exact Hband | reflexivity] ] ].
  - destruct (row_of _ _ _) as [yi | ] eqn:Er; [ | left; reflexivity].
    destruct (column_of _ _ _) as [xi | ] eqn:Ec; [ | left; reflexivity].
    right. exists xi, yi, (match im_mode img with L => 0 | _ => c end).
    split; [exact (column_of_inside _ _ _ _ Ec) | ].
    split; [exact (row_of_inside _ _ _ _ Er) | ].
    split; [exact Hband | reflexivity].
Qed.

Lemma tensor_of_shape (image : Image) :
  arr_shape (tensor_of image)
  = [1; im_height image; im_width image; bands (im_mode image)].
Proof. reflexivity. Qed.

Lemma tensor_of_item (image : Image) (idx : list nat) :
  arr_item (tensor_of image) idx =
  if in_bounds (arr_shape (tensor_of image)) idx then
    match idx with
    | [_; y; x; c] => Some (div (of_byte (im_px image x y c)) c255)
    | _ => None
    end
  else None.
Proof.
  rewrite tensor_of_shape.
  unfold tensor_of, newaxis, div_scalar, img_to_array.
  cbn [arr_item arr_shape].
  destruct idx as [ | [ | i] idx']; try reflexivity.
  match goal with
  | |- _ = (if in_bounds (1 :: ?sh) _ then _ else _) =>
      change (in_bounds (1 :: sh) (0 :: idx')) with (in_bounds sh idx');
      destruct (in_bounds sh idx'); [ | reflexivity]
  end.
  destruct idx' as [ | y [ | x [ | c [ | ? ?] ] ] ]; reflexivity.
Qed.

(** Every 8-bit intensity divided by 255.0 is a float32 between 0 and 1. *)
Lemma byte_over_255_unit (b : Byte.byte) :
  is_float32 (div (of_byte b) c255) = true
  /\ le zero (div (of_byte b) c255) = true
  /\ le (div (of_byte b) c255) one = true.
Proof. destruct b; vm_compute; auto. Qed.

(** Where Pillow's doubles pick another source pixel than the centre
    rule: column 149 when 4 columns are scaled to 299, column 3 when 2 are
    scaled to 7, and 25 of the 224 columns when 512 are scaled to 224;
    nowhere when 4 columns are scaled to 224. *)
Example pillow_off_centre :
  off_centre 4 299 = [149]
  /\ column_of 4 299 149 = Some 1
  /\ centre_rule 4 299 149 = 2
  /\ off_centre 2 7 = [3]
  /\ column_of 2 7 3 = Some 0
  /\ List.length (off_centre 512 224) = 25
  /\ off_centre 4 224 = [].
Proof. vm_compute. repeat split; reflexivity. Qed.

(** C4. The tensor [predict] builds from a readable image and a target
    of [height] rows and [width] columns has shape
    [(1, height, width, 3)] and no item outside it. Its item at
    [[0, y, x, c]] is the 8-bit intensity of band [c] at column [x], row
    [y] of the picture [load_img] returns, divided by 255.0: a float32
    between 0 and 1. That intensity is the file's own pixel when the
    picture has the target size, and otherwise the pixel of the source
    row and column Pillow's scaling copies from; it is always an
    intensity found inside the file's picture, or the 0 of the fill. With
    a loadable model and a non-empty target this tensor is written to the
    input slot. *)
Theorem loader_tensor_shape_and_range (st : state) (image_path : string)
  (height width : nat) (model_path : string) :
  let o := predict image_path (height, width) model_path st in
  (forall img m,
      images st image_path = Picture img ->
      models st model_path = ModelFile m ->
      0 < height -> 0 < width ->
      exists t, In (EvSetTensor model_path t) (emitted o))
  /\ (forall t,
      In (EvSetTensor model_path t) (emitted o) ->
      exists img image,
        images st image_path = Picture img
        /\ load_img_decoded (garbage st width height) img (height, width)
           = Ok image
        /\ t = tensor_of image
        /\ arr_shape t = [1; height; width; 3]
        /\ (forall idx, in_bounds [1; height; width; 3] idx = false ->
                        arr_item t idx = None)
        /\ (forall y x c, y < height -> x < width -> c < 3 ->
              let b := loaded_intensity img (height, width) x y c in
              arr_item t [0; y; x; c] = Some (div (of_byte b) c255)
              /\ is_float32 (div (of_byte b) c255) = true
              /\ le zero (div (of_byte b) c255) = true
              /\ le (div (of_byte b) c255) one = true
              /\ (b = Byte.x00
                  \/ exists x' y' c',
                       x' < im_width img /\ y' < im_height img
                       /\ c' < bands (im_mode img)
                       /\ b = im_px img x' y' c'))).
Proof.
  cbv zeta. split.
  - intros img m Ei Em Hh Hw. rewrite predict_unfold, Em, Ei. cbv zeta.
    cbn [fst snd].
    destruct (load_img_decoded_ok (garbage st width height) img
                height width Hh Hw) as [image ->].
    exists (tensor_of image).
    destruct (accepts m _); cbn [emitted app]; do 3 right; left; reflexivity.
  - intros t. predict_cases; cbn [emitted app]; intros H; in_events.
    all: cbn [fst snd] in Eload.
    all: destruct (load_img_decoded_size _ _ _ _ _ Eload) as (Em & Ew & Eh).
    all: assert (Es : arr_shape (tensor_of image) = [1; height; width; 3])
      by (rewrite tensor_of_shape, Em, Ew, Eh; reflexivity).
    all: exists img, image;
      split; [reflexivity | split; [exact Eload | ] ];
      split; [reflexivity | split; [exact Es | ] ].
    all: split;
      [ intros idx Hidx; rewrite tensor_of_item, Es, Hidx; reflexivity | ].
    all: intros y x c Hy Hx Hc;
      split; [ | split; [apply byte_over_255_unit | ] ];
      [ rewrite tensor_of_item, Es; cbn [in_bounds];
        rewrite (load_img_decoded_px _ _ _ _ _ Eload x y c Hx Hy);
        apply Nat.ltb_lt in Hy, Hx, Hc; rewrite Hy, Hx, Hc; reflexivity
      | split; [apply byte_over_255_unit | ];
        split; [apply byte_over_255_unit | ];
        apply loaded_intensity_source; assumption ].
Qed.

(** ** The application *)

Lemma run_diagnosis_unfold (image_path : string) (st : state) :
  App.run_diagnosis image_path st =
  let o := diagnose image_path st in
  match res o with
  | Raise e => mkOutcome (Raise e) (emitted o) st
  | Ok r =>
      mkOutcome (Ok tt) (emitted o)
        (with_ui st (mkWidgets "" (App.res_of r)))
  end.
Proof.
  unfold App.run_diagnosis, bind. cbv zeta.
  rewrite (diagnose_final image_path st).
  destruct (res (diagnose image_path st)); [ | reflexivity].
  unfold App.display_output, set_ui. cbn [res emitted final].
  rewrite app_nil_r. reflexivity.
Qed.

Lemma upload_image_unfold (file_path : string) (st : state) :
  file_path <> "" ->
  let image_path :=
    String.append "./Testing/" (last (split "/" file_path) "") in
  let st' := with_ui st (mkWidgets "Loading..." (output_text (ui st))) in
  let o := diagnose image_path st' in
  App.upload_image file_path st =
  match res o with
  | Raise e => mkOutcome (Ok tt) (emitted o ++ [EvUncaught e]) st'
  | Ok r =>
      mkOutcome (Ok tt) (emitted o)
        (with_ui st (mkWidgets "" (App.res_of r)))
  end.
Proof.
  intros Hne. cbv zeta. unfold App.upload_image.
  apply String.eqb_neq in Hne. rewrite Hne. cbn [negb].
  unfold bind at 1. unfold App.display_loading at 1.
  unfold bind at 1. unfold get_state at 1. cbn [res emitted final].
  unfold set_ui at 1. cbn [res emitted final app].
  unfold App.Thread_start. rewrite run_diagnosis_unfold. cbv zeta.
  destruct (res (diagnose _ _)); reflexivity.
Qed.

Lemma diagnose_load_path (st : state) (image_path ip : string)
  (sh : nat * nat) :
  In (EvLoadImg ip sh) (emitted (diagnose image_path st)) ->
  ip = image_path.
Proof. diagnose_cases; intros H; in_events; reflexivity. Qed.

(** Whatever file is chosen, the only file [upload_image] has read as an
    image is the one of that name under [./Testing/]. *)
Lemma upload_image_load_path (st : state) (file_path ip : string)
  (sh : nat * nat) :
  In (EvLoadImg ip sh) (emitted (App.upload_image file_path st)) ->
  ip = String.append "./Testing/" (last (split "/" file_path) "").
Proof.
  destruct (String.eqb_spec file_path "") as [-> | Hne].
  - cbn. intros [].
  - rewrite (upload_image_unfold file_path st Hne). cbv zeta.
    destruct (res (diagnose _ _)) eqn:Er; cbn [emitted]; intros H.
    + exact (diagnose_load_path _ _ _ _ H).
    + apply in_app_or in H as [H | H].
      * exact (diagnose_load_path _ _ _ _ H).
      * in_events.
Qed.

(** C5. The file chosen in the dialog is not the file diagnosed. With
    [/home/user/scan.png] chosen, a readable picture, and nothing at
    [./Testing/scan.png], [upload_image] reads [./Testing/scan.png], the
    worker thread dies on [FileNotFoundError], the chosen file is never
    read and the window keeps showing the loading text. *)
Theorem upload_image_rewrites_path :
  let file_path := "/home/user/scan.png" in
  let st := fixture (ratio 3 10) (ratio 2 10) file_path in
  let o := App.upload_image file_path st in
  images st file_path = Picture fixture_image
  /\ emitted o =
       [EvInterpreter model_1_path; EvAllocate model_1_path;
        EvLoadImg "./Testing/scan.png" shape1;
        EvUncaught (FileNotFoundError "./Testing/scan.png")]
  /\ (forall sh, ~ In (EvLoadImg file_path sh) (emitted o))
  /\ ui (final o) = mkWidgets "Loading..." "".
Proof.
  cbv zeta. split; [reflexivity | split; [reflexivity | split] ].
  - intros sh H. apply upload_image_load_path in H. discriminate H.
  - reflexivity.
Qed.

(** ** Failures *)



(** C7. A value [diagnose] returns is ['n'], ['b'] or ['m'], so
    [run_diagnosis], when it returns, has displayed one of the three
    diagnosis texts and never the fallback text. *)
Theorem diagnose_labels_only :
  (forall st image_path r,
      res (diagnose image_path st) = Ok r ->
      (r = "n" \/ r = "b" \/ r = "m") /\ App.res_of r <> "Error")
  /\ (forall st image_path,
        let o := App.run_diagnosis image_path st in
        res o = Ok tt ->
        (output_text (ui (final o)) = "Normal"
         \/ output_text (ui (final o)) = "Benign"
         \/ output_text (ui (final o)) = "Malignant")
        /\ output_text (ui (final o)) <> "Error").
Proof.
  assert (Hlabel : forall st image_path r,
             res (diagnose image_path st) = Ok r ->
             r = "n" \/ r = "b" \/ r = "m").
  { intros st image_path r. diagnose_cases; intros [= <-]; auto. }
  split.
  - intros st image_path r Hr. split; [exact (Hlabel _ _ _ Hr) | ].
    destruct (Hlabel _ _ _ Hr) as [-> | [-> | ->] ]; discriminate.
  - intros st image_path. cbv zeta. rewrite run_diagnosis_unfold. cbv zeta.
    destruct (res (diagnose image_path st)) as [r | e] eqn:Er;
      [ | discriminate].
    intros _. cbn [final ui output_text].
    destruct (Hlabel _ _ _ Er) as [-> | [-> | ->] ];
      (split; [auto | discriminate]).
Qed.

(** ** The two loads of [diagnose] *)

(** Scaling the picture of the first stage up to the second resolution
    would not give the picture of a fresh load: on the sample gradient the
    second pixel of the first row would come out as the third of the
    file, where the fresh load has the second. *)
Lemma stage1_picture_rescaled_differs
  (dirty dirty' : nat -> nat -> nat -> Byte.byte) (image1 again : Image) :
  load_img_decoded dirty gradient_image (224, 224) = Ok image1 ->
  resize dirty' image1 299 299 = Ok again ->
  im_px again 1 0 0 = Byte.x02
  /\ loaded_intensity gradient_image (299, 299) 1 0 0 = Byte.x01.
Proof.
  intros E1 E2. split; [ | vm_compute; reflexivity].
  destruct (load_img_decoded_size _ _ _ _ _ E1) as (_ & Ew & Eh).
  unfold resize in E2. rewrite Ew, Eh in E2. cbn [Nat.eqb andb] in E2.
  change ((299 <? 1) || (299 <? 1)) with false in E2.
  injection E2 as <-. unfold ImagingScaleAffine. cbn [im_px im_width im_height].
  rewrite Ew, Eh.
  change ((1 <? 299) && (0 <? 299)) with true. cbv iota.
  replace (row_of 224 299 0) with (Some 0) by (vm_compute; reflexivity).
  replace (column_of 224 299 1) with (Some 1) by (vm_compute; reflexivity).
  rewrite (load_img_decoded_px _ _ _ _ _ E1 1 0 0) by lia.
  vm_compute. reflexivity.
Qed.

(** C8. When the second stage gets an input tensor, [diagnose] has read
    the image file twice, from the same path: at 224 by 224 for the first
    model, then again at 299 by 299 for the second. The tensor written to
    the second model is computed from that second load, of shape
    [(1, 299, 299, 3)]: each of its items is the intensity the loader
    takes from the file's own picture for the target 299 by 299, divided
    by 255.0. It is not the tensor of the first stage, whose shape is
    [(1, 224, 224, 3)], nor that tensor scaled up, which on the sample
    gradient has another intensity in its second column. Once the second
    model is loaded, the second load is made and its tensor is written. *)
Theorem stage2_fresh_load (st : state) (image_path : string) :
  let o := diagnose image_path st in
  (forall t2,
      In (EvSetTensor model_2_path t2) (emitted o) ->
      exists img image1 image2 m1 post,
        images st image_path = Picture img
        /\ load_img_decoded (garbage st 224 224) img (224, 224) = Ok image1
        /\ load_img_decoded (garbage st 299 299) img (299, 299) = Ok image2
        /\ emitted o =
             [EvInterpreter model_1_path; EvAllocate model_1_path;
              EvLoadImg image_path (224, 224);
              EvSetTensor model_1_path (tensor_of image1);
              EvInvoke model_1_path;
              EvGetTensor model_1_path (infer m1 (tensor_of image1));
              EvInterpreter model_2_path; EvAllocate model_2_path;
              EvLoadImg image_path (299, 299);
              EvSetTensor model_2_path t2] ++ post
        /\ t2 = tensor_of image2
        /\ arr_shape t2 = [1; 299; 299; 3]
        /\ arr_shape (tensor_of image1) = [1; 224; 224; 3]
        /\ t2 <> tensor_of image1
        /\ (forall y x c, y < 299 -> x < 299 -> c < 3 ->
              arr_item t2 [0; y; x; c]
              = Some (div (of_byte (loaded_intensity img (299, 299) x y c))
                          c255))
        /\ (forall y x c, y < 224 -> x < 224 -> c < 3 ->
              arr_item (tensor_of image1) [0; y; x; c]
              = Some (div (of_byte (loaded_intensity img (224, 224) x y c))
                          c255)))
  /\ (In (EvAllocate model_2_path) (emitted o) ->
      In (EvLoadImg image_path (299, 299)) (emitted o)
      /\ exists t2, In (EvSetTensor model_2_path t2) (emitted o))
  /\ (forall dirty dirty' image1 again,
        load_img_decoded dirty gradient_image (224, 224) = Ok image1 ->
        resize dirty' image1 299 299 = Ok again ->
        im_px again 1 0 0
        <> loaded_intensity gradient_image (299, 299) 1 0 0).
Proof.
  cbv zeta. split; [ | split].
  - intros t2. diagnose_cases; intros H; in_events.
    all: unfold shape1, shape2 in Eload, Eload0;
      cbn [fst snd] in Eload, Eload0.
    all: destruct (load_img_decoded_size _ _ _ _ _ Eload)
      as (Em1 & Ew1 & Eh1).
    all: destruct (load_img_decoded_size _ _ _ _ _ Eload0)
      as (Em2 & Ew2 & Eh2).
    all: assert (Es1 : arr_shape (tensor_of image) = [1; 224; 224; 3])
      by (rewrite tensor_of_shape, Em1, Ew1, Eh1; reflexivity).
    all: assert (Es2 : arr_shape (tensor_of image0) = [1; 299; 299; 3])
      by (rewrite tensor_of_shape, Em2, Ew2, Eh2; reflexivity).
    all: exists img, image, image0, m; eexists;
      split; [reflexivity | split; [exact Eload | split; [exact Eload0 | ] ] ];
      split; [reflexivity | split; [reflexivity | ] ];
      split; [exact Es2 | split; [exact Es1 | ] ];
      split; [intros E; rewrite E, Es1 in Es2; injection Es2 as E299; lia | ].
    all: split; intros y x c Hy Hx Hc; rewrite tensor_of_item;
      rewrite ?Es1, ?Es2; cbn [in_bounds];
      [ rewrite (load_img_decoded_px _ _ _ _ _ Eload0 x y c Hx Hy)
      | rewrite (load_img_decoded_px _ _ _ _ _ Eload x y c Hx Hy) ];
      apply Nat.ltb_lt in Hy, Hx, Hc; rewrite Hy, Hx, Hc; reflexivity.
  - diagnose_cases; intros H; in_events.
    all: try (exfalso;
              destruct (load_img_decoded_ok (garbage st 299 299) img 299 299)
                as [image' E']; [lia | lia | ];
              unfold shape2 in *; cbn [fst snd] in *; congruence).
    all: split; [do 8 right; left; reflexivity | ];
      eexists; do 9 right; left; reflexivity.
  - intros dirty dirty' image1 again E1 E2.
    destruct (stage1_picture_rescaled_differs _ _ _ _ E1 E2) as [-> ->].
    discriminate.
Qed.

(** ** Repeated loads *)

Lemma ndarray_ext (t1 t2 : ndarray) :
  arr_shape t1 = arr_shape t2 ->
  (forall idx, arr_item t1 idx = arr_item t2 idx) ->
  t1 = t2.
Proof.
  destruct t1 as [s1 i1], t2 as [s2 i2]. cbn [arr_shape arr_item].
  intros -> Hi. f_equal. apply functional_extensionality. exact Hi.
Qed.

(** The tensor of a load does not depend on what the fresh buffer held:
    inside the picture every pixel has been written. *)
Lemma tensor_of_load_garbage_free
  (dirty dirty' : nat -> nat -> nat -> Byte.byte) (img image image' : Image)
  (shape : nat * nat) :
  load_img_decoded dirty img shape = Ok image ->
  load_img_decoded dirty' img shape = Ok image' ->
  tensor_of image = tensor_of image'.
Proof.
  destruct shape as [h w]. intros E E'.
  destruct (load_img_decoded_size _ _ _ _ _ E) as (Em & Ew & Eh).
  destruct (load_img_decoded_size _ _ _ _ _ E') as (Em' & Ew' & Eh').
  assert (Es : arr_shape (tensor_of image) = arr_shape (tensor_of image'))
    by (rewrite !tensor_of_shape; congruence).
  apply ndarray_ext; [exact Es | ].
  intros idx. rewrite !tensor_of_item, <- Es, tensor_of_shape, Em, Ew, Eh.
  destruct (in_bounds _ idx) eqn:Eb; [ | reflexivity].
  destruct idx as [ | i [ | y [ | x [ | c [ | ? ?] ] ] ] ]; try reflexivity.
  cbn [in_bounds] in Eb.
  apply andb_true_iff in Eb as [_ Eb].
  apply andb_true_iff in Eb as [Hy Eb].
  apply andb_true_iff in Eb as [Hx _].
  apply Nat.ltb_lt in Hy, Hx.
  rewrite (load_img_decoded_px _ _ _ _ _ E x y c Hx Hy).
  rewrite (load_img_decoded_px _ _ _ _ _ E' x y c Hx Hy).
  reflexivity.
Qed.

Lemma predict_files_only (st st' : state) (image_path : string)
  (shape : nat * nat) (model_path : string) :
  models st' = models st -> images st' = images st ->
  res (predict image_path shape model_path st')
  = res (predict image_path shape model_path st)
  /\ emitted (predict image_path shape model_path st')
     = emitted (predict image_path shape model_path st).
Proof.
  intros Hm Hi. rewrite !predict_unfold, Hm, Hi. cbv zeta.
  destruct (models st model_path) as [ | m]; [split; reflexivity | ].
  destruct (images st image_path) as [ | | | | | img];
    try (split; reflexivity).
  destruct (load_img_decoded (garbage st _ _) img shape)
    as [image | e] eqn:E.
  - destruct (load_img_decoded (garbage st' _ _) img shape)
      as [image' | e'] eqn:E'.
    + rewrite (tensor_of_load_garbage_free _ _ _ _ _ _ E' E).
      destruct (accepts m _); split; reflexivity.
    + apply (load_img_decoded_raise _ (garbage st (snd shape) (fst shape)))
        in E'. congruence.
  - rewrite (load_img_decoded_raise _ (garbage st' (snd shape) (fst shape))
               _ _ _ E).
    split; reflexivity.
Qed.

(** C9. Loading the same image file at the same target size twice gives
    the same tensor, item for item, whatever the memory the loader was
    given the first and the second time: in two states with the same
    files, whose fresh buffers and widgets may hold anything, two calls
    of [predict] on the same image path and target size hand equal
    tensors to the interpreter, whatever the two models. With the same
    model the second call returns what the first returned and leaves the
    same events, and so does a second call of [diagnose]. This holds in
    particular for a second call made in the state the first one ended
    in. *)
Theorem loader_deterministic (st st' : state) (image_path : string)
  (shape : nat * nat) (model_path model_path' : string) :
  models st' = models st -> images st' = images st ->
  let o1 := predict image_path shape model_path st in
  let o2 := predict image_path shape model_path' st' in
  (forall t1 t2,
      In (EvSetTensor model_path t1) (emitted o1) ->
      In (EvSetTensor model_path' t2) (emitted o2) ->
      t1 = t2)
  /\ (model_path' = model_path ->
      res o2 = res o1 /\ emitted o2 = emitted o1)
  /\ (res (diagnose image_path st') = res (diagnose image_path st)
      /\ emitted (diagnose image_path st')
         = emitted (diagnose image_path st))
  /\ (let o3 := predict image_path shape model_path (final o1) in
      res o3 = res o1 /\ emitted o3 = emitted o1).
Proof.
  intros Hm Hi. cbv zeta. split; [ | split; [ | split] ].
  - intros t1 t2. rewrite !predict_unfold, Hm, Hi. cbv zeta.
    destruct (models st model_path) as [ | m];
      [cbn [emitted]; intros H; in_events | ].
    destruct (models st model_path') as [ | m'];
      [cbn [emitted]; intros _ H; in_events | ].
    destruct (images st image_path) as [ | | | | | img];
      try (cbn [emitted]; intros H; in_events; fail).
    destruct (load_img_decoded (garbage st _ _) img shape)
      as [image | e] eqn:E;
      [ | cbn [emitted]; intros H; in_events].
    destruct (load_img_decoded (garbage st' _ _) img shape)
      as [image' | e'] eqn:E';
      [ | cbn [emitted]; intros _ H; in_events].
    pose proof (tensor_of_load_garbage_free _ _ _ _ _ _ E E') as Et.
    destruct (accepts m _), (accepts m' _); cbn [emitted app];
      intros H1 H2; in_events; exact Et.
  - intros ->. apply predict_files_only; assumption.
  - rewrite !diagnose_unfold. cbv zeta.
    destruct (predict_files_only st st' image_path shape1 model_1_path Hm Hi)
      as [-> ->].
    destruct (predict_files_only st st' image_path shape2 model_2_path Hm Hi)
      as [-> ->].
    destruct (res (predict image_path shape1 model_1_path st));
      [ | split; reflexivity].
    destruct (_ =? 1)%Z; [split; reflexivity | ].
    destruct (res (predict image_path shape2 model_2_path st));
      split; reflexivity.
  - rewrite predict_final. split; reflexivity.
Qed.

(** ** Order of the calls in [predict] *)

(** C10. In a call of [predict] the image file is read only after the
    interpreter is built and its tensors are allocated: the events before
    a load of the image are exactly these two. So when the model file is
    missing or malformed the call raises the failure of the model and
    never reads the image, whatever the state of the image file. *)
Theorem predict_model_before_image (st : state) (image_path : string)
  (shape : nat * nat) (model_path : string) :
  let o := predict image_path shape model_path st in
  (forall pre post ip sh,
      emitted o = pre ++ EvLoadImg ip sh :: post ->
      pre = [EvInterpreter model_path; EvAllocate model_path])
  /\ (models st model_path = NoModel ->
      res o = Raise (ValueError_model model_path)
      /\ emitted o = [EvInterpreter model_path]
      /\ forall ip sh, ~ In (EvLoadImg ip sh) (emitted o)).
Proof.
  cbv zeta. split.
  - intros pre post ip sh.
    predict_cases; cbn [emitted app]; intros H;
      repeat (destruct pre as [ | ? pre]; cbn [app] in H;
              try discriminate H;
              try (injection H as <- H));
      try reflexivity;
      try (inversion H; fail).
  - intros Hm. rewrite predict_unfold, Hm. cbn [res emitted].
    split; [reflexivity | split; [reflexivity | ] ].
    intros ip sh H. in_events.
Qed.

(** * Concrete runs *)

(** The end-to-end scenario: 0.6 gives normal without a second stage;
    0.3 then 0.2 gives benign; 0.1 then 0.9 gives malignant. *)
Example scenario_normal :
  let o := diagnose "fixture.png"
             (fixture (ratio 6 10) (ratio 9 10) "fixture.png") in
  res o = Ok "n" /\ List.length (emitted o) = 6.
Proof. split; reflexivity. Qed.

Example scenario_benign :
  res (diagnose "fixture.png"
         (fixture (ratio 3 10) (ratio 2 10) "fixture.png")) = Ok "b".
Proof. reflexivity. Qed.

Example scenario_malignant :
  res (diagnose "fixture.png"
         (fixture (ratio 1 10) (ratio 9 10) "fixture.png")) = Ok "m".
Proof. reflexivity. Qed.

Example scenario_nan :
  res (diagnose "fixture.png"
         (fixture S754_nan S754_nan "fixture.png")) = Ok "b".
Proof. reflexivity. Qed.

Example split_path :
  split "/" "/home/user/scan.png" = [""; "home"; "user"; "scan.png"].
Proof. reflexivity. Qed.

Example upload_then_display :
  ui (final (App.upload_image "/data/Testing/scan.png"
               (fixture (ratio 1 10) (ratio 9 10) "./Testing/scan.png")))
  = mkWidgets "" "Malignant".
Proof. reflexivity. Qed.

Example upload_cancelled :
  emitted (App.upload_image "" empty_disk) = []
  /\ ui (final (App.upload_image "" empty_disk)) = mkWidgets "" "".
Proof. split; reflexivity. Qed.

(** The runs of the sample states, with the two loaded pictures kept
    abstract. *)
Lemma fixture_predict (p1 p2 : float32) (image_path : string) :
  let st := fixture p1 p2 image_path in
  exists image1 image2,
    load_img_decoded (garbage st 224 224) fixture_image shape1 = Ok image1
    /\ load_img_decoded (garbage st 299 299) fixture_image shape2 = Ok image2
    /\ predict image_path shape1 model_1_path st =
       mkOutcome (Ok (threshold p1))
         [EvInterpreter model_1_path; EvAllocate model_1_path;
          EvLoadImg image_path shape1;
          EvSetTensor model_1_path (tensor_of image1);
          EvInvoke model_1_path; EvGetTensor model_1_path p1] st
    /\ predict image_path shape2 model_2_path st =
       mkOutcome (Ok (threshold p2))
         [EvInterpreter model_2_path; EvAllocate model_2_path;
          EvLoadImg image_path shape2;
          EvSetTensor model_2_path (tensor_of image2);
          EvInvoke model_2_path; EvGetTensor model_2_path p2] st.
Proof.
  cbv zeta.
  destruct (load_img_decoded_ok
              (garbage (fixture p1 p2 image_path) 224 224)
              fixture_image 224 224) as [image1 E1];
    [lia | lia | ].
  destruct (load_img_decoded_ok
              (garbage (fixture p1 p2 image_path) 299 299)
              fixture_image 299 299) as [image2 E2];
    [lia | lia | ].
  exists image1, image2.
  destruct (load_img_decoded_size _ _ _ _ _ E1) as (Em1 & Ew1 & Eh1).
  destruct (load_img_decoded_size _ _ _ _ _ E2) as (Em2 & Ew2 & Eh2).
  assert (Ha1 : accepts (constant_model 224 p1) (tensor_of image1) = true).
  { unfold accepts. rewrite tensor_of_shape, Em1, Ew1, Eh1. reflexivity. }
  assert (Ha2 : accepts (constant_model 299 p2) (tensor_of image2) = true).
  { unfold accepts. rewrite tensor_of_shape, Em2, Ew2, Eh2. reflexivity. }
  assert (Ei : images (fixture p1 p2 image_path) image_path
               = Picture fixture_image).
  { cbn [fixture images]. rewrite String.eqb_refl. reflexivity. }
  split; [exact E1 | split; [exact E2 | ] ].
  rewrite !predict_unfold, Ei. cbv zeta.
  change (models (fixture p1 p2 image_path) model_1_path)
    with (ModelFile (constant_model 224 p1)).
  change (models (fixture p1 p2 image_path) model_2_path)
    with (ModelFile (constant_model 299 p2)).
  cbv iota. unfold shape1, shape2. cbn [fst snd].
  rewrite E1, E2, Ha1, Ha2. split; reflexivity.
Qed.

Lemma fixture_diagnose (p1 p2 : float32) (image_path : string) :
  let st := fixture p1 p2 image_path in
  exists image1 image2,
    diagnose image_path st =
    if gt p1 half
    then mkOutcome (Ok "n")
           [EvInterpreter model_1_path; EvAllocate model_1_path;
            EvLoadImg image_path shape1;
            EvSetTensor model_1_path (tensor_of image1);
            EvInvoke model_1_path; EvGetTensor model_1_path p1] st
    else mkOutcome (Ok (if gt p2 half then "m" else "b"))
           [EvInterpreter model_1_path; EvAllocate model_1_path;
            EvLoadImg image_path shape1;
            EvSetTensor model_1_path (tensor_of image1);
            EvInvoke model_1_path; EvGetTensor model_1_path p1;
            EvInterpreter model_2_path; EvAllocate model_2_path;
            EvLoadImg image_path shape2;
            EvSetTensor model_2_path (tensor_of image2);
            EvInvoke model_2_path; EvGetTensor model_2_path p2] st.
Proof.
  cbv zeta.
  destruct (fixture_predict p1 p2 image_path)
    as (image1 & image2 & _ & _ & P1 & P2).
  exists image1, image2. rewrite diagnose_unfold. cbv zeta.
  rewrite P1, P2. cbn [res emitted]. unfold threshold.
  destruct (gt p1 half); cbn [Z.eqb Pos.eqb]; [reflexivity | ].
  destruct (gt p2 half); reflexivity.
Qed.

(** Rewrites the run of [diagnose] on a sample state into its list of
    events. *)
Ltac run_fixture p1 p2 path :=
  let image1 := fresh "image1" in
  let image2 := fresh "image2" in
  let E := fresh "Erun" in
  destruct (fixture_diagnose p1 p2 path) as (image1 & image2 & E);
  cbv zeta in E; rewrite E;
  match goal with
  | |- context [gt p1 half] =>
      let b := eval vm_compute in (gt p1 half) in
      change (gt p1 half) with b
  end;
  cbv iota; cbn [res emitted final].

Ltac pick_event := repeat first [left; reflexivity | right].

Lemma diagnose_stage2_iff_class0_witness :
  let stn := fixture (ratio 6 10) (ratio 9 10) "fixture.png" in
  let stb := fixture (ratio 3 10) (ratio 2 10) "fixture.png" in
  (res (diagnose "fixture.png" stn) = Ok "n"
   /\ emitted (diagnose "fixture.png" stn)
      = emitted (predict "fixture.png" shape1 model_1_path stn))
  /\ In (EvInterpreter model_2_path) (emitted (diagnose "fixture.png" stb))
  /\ gt (ratio 3 10) half = false.
Proof.
  cbv zeta.
  destruct (diagnose_stage2_iff_class0
              (fixture (ratio 6 10) (ratio 9 10) "fixture.png")
              "fixture.png") as (_ & Hn & _).
  destruct (diagnose_stage2_iff_class0
              (fixture (ratio 3 10) (ratio 2 10) "fixture.png")
              "fixture.png") as (Hiff & _ & Hp).
  split; [ | split].
  - destruct (Hn eq_refl) as (Hres & Hev & _). split; assumption.
  - apply (proj2 Hiff). reflexivity.
  - refine (proj1 (proj1 (Hp (ratio 3 10) _)) eq_refl).
    run_fixture (ratio 3 10) (ratio 2 10) "fixture.png". pick_event.
Defined.

Lemma diagnose_benign_malignant_witness :
  res (diagnose "fixture.png"
         (fixture (ratio 3 10) (ratio 2 10) "fixture.png")) = Ok "b"
  /\ res (diagnose "fixture.png"
            (fixture (ratio 1 10) (ratio 9 10) "fixture.png")) = Ok "m".
Proof.
  split.
  - apply (diagnose_benign_malignant
             (fixture (ratio 3 10) (ratio 2 10) "fixture.png")
             "fixture.png" (ratio 3 10) (ratio 2 10));
      try reflexivity;
      run_fixture (ratio 3 10) (ratio 2 10) "fixture.png"; pick_event.
  - apply (diagnose_benign_malignant
             (fixture (ratio 1 10) (ratio 9 10) "fixture.png")
             "fixture.png" (ratio 1 10) (ratio 9 10));
      try reflexivity;
      run_fixture (ratio 1 10) (ratio 9 10) "fixture.png"; pick_event.
Defined.

Lemma threshold_strict_at_half_witness :
  let st := fixture half half "fixture.png" in
  res (predict "fixture.png" shape1 model_1_path st) = Ok 0%Z
  /\ In (EvInterpreter model_2_path) (emitted (diagnose "fixture.png" st))
  /\ res (diagnose "fixture.png" st) = Ok "b".
Proof.
  cbv zeta.
  destruct threshold_strict_at_half as (_ & _ & _ & Hp & Hd).
  destruct (Hd (fixture half half "fixture.png") "fixture.png")
    as (H1 & H2).
  split; [ | split].
  - apply (Hp (fixture half half "fixture.png") "fixture.png" shape1
             model_1_path half).
    destruct (fixture_predict half half "fixture.png")
      as (image1 & image2 & _ & _ & P1 & _).
    cbv zeta in P1. rewrite P1. cbn [emitted]. pick_event.
  - apply H1. run_fixture half half "fixture.png". pick_event.
  - apply H2. run_fixture half half "fixture.png". pick_event.
Defined.

Lemma loader_tensor_shape_and_range_witness :
  let st := fixture half half "fixture.png" in
  exists t,
    In (EvSetTensor model_2_path t)
       (emitted (predict "fixture.png" (299, 299) model_2_path st))
    /\ arr_shape t = [1; 299; 299; 3]
    /\ arr_item t [0; 0; 148; 0] = Some (ratio 8 10)
    /\ arr_item t [0; 0; 149; 0] = Some (ratio 8 10)
    /\ arr_item t [0; 0; 150; 0] = Some (ratio 2 10)
    /\ le (ratio 8 10) one = true.
Proof.
  cbv zeta.
  destruct (loader_tensor_shape_and_range (fixture half half "fixture.png")
              "fixture.png" 299 299 model_2_path) as (HA & HB).
  destruct (HA fixture_image (constant_model 299 half) eq_refl eq_refl)
    as [t Ht]; [lia | lia | ].
  exists t. split; [exact Ht | ].
  destruct (HB t Ht) as (img & image & Ei & _ & _ & Hs & _ & Hv).
  change (Picture fixture_image = Picture img) in Ei.
  injection Ei as <-.
  split; [exact Hs | ].
  pose proof (Hv 0 148 0 ltac:(lia) ltac:(lia) ltac:(lia)) as H148.
  pose proof (Hv 0 149 0 ltac:(lia) ltac:(lia) ltac:(lia)) as H149.
  pose proof (Hv 0 150 0 ltac:(lia) ltac:(lia) ltac:(lia)) as H150.
  cbv zeta in H148, H149, H150.
  destruct H148 as (H148 & _). destruct H149 as (H149 & _ & _ & Hle & _).
  destruct H150 as (H150 & _).
  replace (loaded_intensity fixture_image (299, 299) 148 0 0)
    with Byte.xcc in H148 by (vm_compute; reflexivity).
  replace (loaded_intensity fixture_image (299, 299) 149 0 0)
    with Byte.xcc in H149, Hle by (vm_compute; reflexivity).
  replace (loaded_intensity fixture_image (299, 299) 150 0 0)
    with Byte.x33 in H150 by (vm_compute; reflexivity).
  split; [exact H148 | split; [exact H149 | split; [exact H150 | exact Hle] ] ].
Defined.


Lemma diagnose_labels_only_witness :
  let st := fixture (ratio 1 10) (ratio 9 10) "fixture.png" in
  App.res_of "m" <> "Error"
  /\ output_text (ui (final (App.run_diagnosis "fixture.png" st)))
     <> "Error".
Proof.
  cbv zeta. destruct diagnose_labels_only as (H1 & H2). split.
  - exact (proj2 (H1 (fixture (ratio 1 10) (ratio 9 10) "fixture.png")
                    "fixture.png" "m" eq_refl)).
  - exact (proj2 (H2 (fixture (ratio 1 10) (ratio 9 10) "fixture.png")
                    "fixture.png" eq_refl)).
Defined.

Lemma stage2_fresh_load_witness :
  let st := fixture (ratio 3 10) (ratio 2 10) "fixture.png" in
  exists t2,
    In (EvSetTensor model_2_path t2) (emitted (diagnose "fixture.png" st))
    /\ arr_shape t2 = [1; 299; 299; 3]
    /\ arr_item t2 [0; 0; 149; 0] = Some (ratio 8 10)
    /\ arr_item t2 [0; 0; 150; 0] = Some (ratio 2 10)
    /\ In (EvLoadImg "fixture.png" (299, 299))
          (emitted (diagnose "fixture.png" st))
    /\ exists image1 again,
         load_img_decoded (garbage st 224 224) gradient_image (224, 224)
         = Ok image1
         /\ resize (garbage st 299 299) image1 299 299 = Ok again
         /\ im_px again 1 0 0
            <> loaded_intensity gradient_image (299, 299) 1 0 0.
Proof.
  cbv zeta.
  destruct (stage2_fresh_load
              (fixture (ratio 3 10) (ratio 2 10) "fixture.png")
              "fixture.png") as (H1 & H2 & H3).
  assert (Ha : In (EvAllocate model_2_path)
                 (emitted (diagnose "fixture.png"
                    (fixture (ratio 3 10) (ratio 2 10) "fixture.png")))).
  { run_fixture (ratio 3 10) (ratio 2 10) "fixture.png". pick_event. }
  destruct (H2 Ha) as (Hl & t2 & Ht2). exists t2.
  split; [exact Ht2 | ].
  destruct (H1 t2 Ht2)
    as (img & image1 & image2 & m1 & post & Ei & _ & _ & _ & _ & Hs & _ & _
        & Hitem & _).
  change (Picture fixture_image = Picture img) in Ei.
  injection Ei as <-.
  split; [exact Hs | ].
  pose proof (Hitem 0 149 0 ltac:(lia) ltac:(lia) ltac:(lia)) as H149.
  pose proof (Hitem 0 150 0 ltac:(lia) ltac:(lia) ltac:(lia)) as H150.
  replace (loaded_intensity fixture_image (299, 299) 149 0 0)
    with Byte.xcc in H149 by (vm_compute; reflexivity).
  replace (loaded_intensity fixture_image (299, 299) 150 0 0)
    with Byte.x33 in H150 by (vm_compute; reflexivity).
  split; [exact H149 | split; [exact H150 | split; [exact Hl | ] ] ].
  destruct (load_img_decoded_ok
              (garbage (fixture (ratio 3 10) (ratio 2 10) "fixture.png")
                 224 224)
              gradient_image 224 224) as [scaled E1]; [lia | lia | ].
  destruct (load_img_decoded_size _ _ _ _ _ E1) as (_ & Ew & Eh).
  assert (E2 : resize
                 (garbage (fixture (ratio 3 10) (ratio 2 10) "fixture.png")
                    299 299)
                 scaled 299 299
               = Ok (ImagingScaleAffine
                       (mkImage (im_mode scaled) 299 299
                          (garbage
                             (fixture (ratio 3 10) (ratio 2 10)
                                "fixture.png") 299 299))
                       scaled true)).
  { unfold resize. rewrite Ew, Eh. reflexivity. }
  exists scaled. eexists.
  split; [exact E1 | split; [exact E2 | exact (H3 _ _ _ _ E1 E2)] ].
Defined.

Lemma loader_deterministic_witness :
  let st := fixture half half "fixture.png" in
  let st' := with_garbage st (fun _ _ _ _ _ => Byte.xff)
               (mkWidgets "Loading..." "Benign") in
  let o1 := predict "fixture.png" shape2 model_2_path st in
  let o2 := predict "fixture.png" shape2 model_2_path st' in
  res o2 = res o1
  /\ exists t1 t2,
       In (EvSetTensor model_2_path t1) (emitted o1)
       /\ In (EvSetTensor model_2_path t2) (emitted o2)
       /\ t1 = t2.
Proof.
  cbv zeta.
  destruct (loader_deterministic (fixture half half "fixture.png")
              (with_garbage (fixture half half "fixture.png")
                 (fun _ _ _ _ _ => Byte.xff)
                 (mkWidgets "Loading..." "Benign"))
              "fixture.png" shape2 model_2_path model_2_path
              eq_refl eq_refl)
    as (Ht & Hr & _).
  destruct (Hr eq_refl) as (Hres & Hev).
  split; [exact Hres | ].
  destruct (fixture_predict half half "fixture.png")
    as (image1 & image2 & _ & _ & _ & P2).
  cbv zeta in P2.
  assert (I1 : In (EvSetTensor model_2_path (tensor_of image2))
                 (emitted (predict "fixture.png" shape2 model_2_path
                             (fixture half half "fixture.png")))).
  { rewrite P2. cbn [emitted]. pick_event. }
  assert (I2 : In (EvSetTensor model_2_path (tensor_of image2))
                 (emitted (predict "fixture.png" shape2 model_2_path
                    (with_garbage (fixture half half "fixture.png")
                       (fun _ _ _ _ _ => Byte.xff)
                       (mkWidgets "Loading..." "Benign"))))).
  { rewrite Hev. exact I1. }
  exists (tensor_of image2), (tensor_of image2).
  split; [exact I1 | split; [exact I2 | exact (Ht _ _ I1 I2)] ].
Defined.

Lemma predict_model_before_image_witness :
  images empty_disk "missing.png" = NoFile
  /\ res (predict "missing.png" shape1 model_1_path empty_disk)
     = Raise (ValueError_model model_1_path)
  /\ [EvInterpreter model_1_path; EvAllocate model_1_path]
     = [EvInterpreter model_1_path; EvAllocate model_1_path].
Proof.
  split; [reflexivity | split].
  - exact (proj1 (proj2 (predict_model_before_image empty_disk
                           "missing.png" shape1 model_1_path) eq_refl)).
  - destruct (fixture_predict half half "fixture.png")
      as (image1 & image2 & _ & _ & P1 & _).
    cbv zeta in P1.
    apply (proj1 (predict_model_before_image
                    (fixture half half "fixture.png") "fixture.png"
                    shape1 model_1_path)
             [EvInterpreter model_1_path; EvAllocate model_1_path]
             [EvSetTensor model_1_path (tensor_of image1);
              EvInvoke model_1_path; EvGetTensor model_1_path half]
             "fixture.png" shape1).
    rewrite P1. reflexivity.
Defined.

(** * Further properties *)

(** ** Splitting a path *)

Lemma split_not_nil (sep : ascii) (s : string) : split sep s <> [].
Proof.
  destruct s as [ | c s']; cbn [split]; [discriminate | ].
  destruct (Ascii.eqb c sep); [discriminate | ].
  destruct (split sep s'); discriminate.
Qed.

Lemma join_cons (sep : ascii) (piece : string) (rest : list string) :
  rest <> [] ->
  join sep (piece :: rest)
  = String.append piece (String sep (join sep rest)).
Proof. destruct rest; [congruence | reflexivity]. Qed.

Lemma join_split (sep : ascii) (s : string) : join sep (split sep s) = s.
Proof.
  induction s as [ | c s' IH]; [reflexivity | ].
  cbn [split]. destruct (Ascii.eqb c sep) eqn:Ec.
  - apply Ascii.eqb_eq in Ec. subst c.
    rewrite (join_cons sep EmptyString _ (split_not_nil sep s')), IH.
    reflexivity.
  - destruct (split sep s') as [ | piece pieces] eqn:Es.
    + exfalso. exact (split_not_nil sep s' Es).
    + destruct pieces as [ | piece' pieces'].
      * cbn [join] in *. rewrite IH. reflexivity.
      * change (join sep (String c piece :: piece' :: pieces'))
          with (String c (join sep (piece :: piece' :: pieces'))).
        rewrite IH. reflexivity.
Qed.

Lemma split_pieces_clean (sep : ascii) (s : string) :
  Forall (fun piece => contains sep piece = false) (split sep s).
Proof.
  induction s as [ | c s' IH]; cbn [split].
  - constructor; [reflexivity | constructor].
  - destruct (Ascii.eqb c sep) eqn:Ec.
    + constructor; [reflexivity | exact IH].
    + destruct (split sep s') as [ | piece pieces].
      * constructor; [ | constructor]. cbn [contains]. rewrite Ec. reflexivity.
      * inversion IH as [ | ? ? Hp Hps]; subst.
        constructor; [ | exact Hps]. cbn [contains]. rewrite Ec. exact Hp.
Qed.

Lemma split_length (sep : ascii) (s : string) :
  List.length (split sep s) = S (count sep s).
Proof.
  induction s as [ | c s' IH]; [reflexivity | ].
  cbn [split count]. destruct (Ascii.eqb c sep).
  - cbn [List.length]. rewrite IH. reflexivity.
  - destruct (split sep s') as [ | piece pieces]; [discriminate IH | ].
    cbn [List.length] in *. rewrite IH. reflexivity.
Qed.

(** The last piece is what follows the last separator. *)
Lemma split_last_suffix (sep : ascii) (s : string) :
  exists dir,
    s = String.append dir (last (split sep s) EmptyString)
    /\ (dir = EmptyString
        \/ exists d, dir = String.append d (String sep EmptyString)).
Proof.
  induction s as [ | c s' (dir & Hs & Hdir)].
  - exists EmptyString. split; [reflexivity | left; reflexivity].
  - cbn [split]. destruct (Ascii.eqb c sep) eqn:Ec.
    + apply Ascii.eqb_eq in Ec. subst c.
      destruct (split sep s') as [ | piece pieces] eqn:Es;
        [exfalso; exact (split_not_nil sep s' Es) | ].
      change (last (EmptyString :: piece :: pieces) EmptyString)
        with (last (piece :: pieces) EmptyString).
      exists (String sep dir). split.
      * cbn [String.append]. rewrite <- Hs. reflexivity.
      * right. destruct Hdir as [-> | (d & ->)].
        -- exists EmptyString. reflexivity.
        -- exists (String sep d). reflexivity.
    + destruct (split sep s') as [ | piece pieces] eqn:Es;
        [exfalso; exact (split_not_nil sep s' Es) | ].
      destruct pieces as [ | piece' pieces'].
      * cbn [last] in *. exists EmptyString. split; [ | left; reflexivity].
        cbn [String.append].
        destruct Hdir as [-> | (d & ->)].
        -- cbn [String.append] in Hs. rewrite Hs. reflexivity.
        -- exfalso.
           assert (Hc : contains sep s' = true).
           { rewrite Hs. clear. induction d as [ | c' d' IHd];
               cbn [String.append contains].
             - rewrite Ascii.eqb_refl. reflexivity.
             - rewrite IHd. apply orb_true_r. }
           pose proof (split_pieces_clean sep s') as Hclean.
           pose proof (join_split sep s') as Hj.
           rewrite Es in Hclean, Hj. cbn [join] in Hj. subst piece.
           inversion Hclean as [ | ? ? Hp _]; subst. congruence.
      * change (last (String c piece :: piece' :: pieces') EmptyString)
          with (last (piece :: piece' :: pieces') EmptyString).
        destruct Hdir as [-> | (d & ->)].
        -- exfalso. cbn [String.append] in Hs.
           pose proof (split_pieces_clean sep s') as Hclean.
           pose proof (split_length sep s') as Hl.
           rewrite Es in Hclean, Hl.
           assert (Hin : In (last (piece :: piece' :: pieces') EmptyString)
                           (piece :: piece' :: pieces')).
           { destruct (exists_last (l := piece :: piece' :: pieces'))
               as (l' & a & El); [discriminate | ].
             rewrite El, last_last. apply in_or_app. right. left.
             reflexivity. }
           rewrite Forall_forall in Hclean. apply Hclean in Hin.
           rewrite <- Hs in Hin.
           assert (Hcount : forall t, contains sep t = false ->
                                      count sep t = 0).
           { clear. induction t as [ | c' t' IHt]; [reflexivity | ].
             cbn [contains count]. intros H.
             apply orb_false_iff in H as [-> H]. exact (IHt H). }
           rewrite (Hcount _ Hin) in Hl. discriminate Hl.
        -- exists (String c (String.append d (String sep EmptyString))).
           split.
           ++ cbn [String.append]. rewrite <- Hs. reflexivity.
           ++ right. exists (String c d). reflexivity.
Qed.

(** X1. Joining the pieces of [s.split(sep)] with [sep] gives [s] back;
    there is always at least one piece, one more than the separators in
    [s], and no piece contains the separator. *)
Theorem split_join_roundtrip (sep : ascii) (s : string) :
  join sep (split sep s) = s
  /\ List.length (split sep s) = S (count sep s)
  /\ Forall (fun piece => contains sep piece = false) (split sep s).
Proof.
  split; [apply join_split | split];
    [apply split_length | apply split_pieces_clean].
Qed.

Lemma split_last_clean (sep : ascii) (s : string) :
  contains sep (last (split sep s) EmptyString) = false.
Proof.
  pose proof (split_pieces_clean sep s) as Hclean.
  destruct (exists_last (split_not_nil sep s)) as (l' & a & El).
  rewrite El in *. rewrite last_last.
  rewrite Forall_forall in Hclean. apply Hclean.
  apply in_or_app. right. left. reflexivity.
Qed.

(** ** What [upload_image] diagnoses *)

(** X2. Whatever is chosen in the dialog, the image [upload_image] reads
    is a direct child of [./Testing/]: its name is what follows the last
    ['/'] of the chosen path, and has no ['/'] in it. *)
Theorem upload_image_reads_testing_child (st : state)
  (file_path ip : string) (sh : nat * nat) :
  In (EvLoadImg ip sh) (emitted (App.upload_image file_path st)) ->
  exists dir image_name,
    file_path = String.append dir image_name
    /\ (dir = EmptyString
        \/ exists d, dir = String.append d "/")
    /\ contains "/" image_name = false
    /\ ip = String.append "./Testing/" image_name.
Proof.
  intros H. apply upload_image_load_path in H.
  destruct (split_last_suffix "/" file_path) as (dir & Hs & Hdir).
  exists dir, (last (split "/" file_path) "").
  split; [exact Hs | split; [exact Hdir | split] ].
  - apply split_last_clean.
  - exact H.
Qed.


Lemma diagnose_no_uncaught (st : state) (image_path : string) (e : exn) :
  ~ In (EvUncaught e) (emitted (diagnose image_path st)).
Proof. diagnose_cases; intros H; in_events. Qed.

Lemma diagnose_label (st : state) (image_path r : string) :
  res (diagnose image_path st) = Ok r -> r = "n" \/ r = "b" \/ r = "m".
Proof. diagnose_cases; intros [= <-]; auto. Qed.

Lemma res_of_label (r : string) :
  r = "n" \/ r = "b" \/ r = "m" -> is_diagnosis_text (App.res_of r).
Proof.
  unfold is_diagnosis_text. intros [-> | [-> | ->] ]; cbn; auto.
Qed.

(** X4. [upload_image] never raises and writes no file. On a cancelled
    dialog it does nothing. Otherwise either the worker thread died: the
    label is left on "Loading..." and the text of the previous diagnosis
    stays displayed; or it did not: the label is cleared and the text is
    one of the three diagnosis texts. *)
Theorem upload_image_outcome (st : state) (file_path : string) :
  let o := App.upload_image file_path st in
  res o = Ok tt
  /\ models (final o) = models st
  /\ images (final o) = images st
  /\ (file_path = "" -> emitted o = [] /\ final o = st)
  /\ (file_path <> "" ->
      ((exists e, In (EvUncaught e) (emitted o))
       /\ ui (final o) = mkWidgets "Loading..." (output_text (ui st)))
      \/ ((forall e, ~ In (EvUncaught e) (emitted o))
          /\ loading_label (ui (final o)) = ""
          /\ is_diagnosis_text (output_text (ui (final o))))).
Proof.
  cbv zeta. destruct (String.eqb_spec file_path "") as [-> | Hne].
  - cbn. repeat split; congruence.
  - rewrite (upload_image_unfold file_path st Hne). cbv zeta.
    destruct (res (diagnose _ _)) as [r | e] eqn:Er;
      cbn [res emitted final models images ui];
      (split; [reflexivity | split; [reflexivity | split; [reflexivity | ] ] ]);
      (split; [congruence | intros _]).
    + right. split; [intros e; apply diagnose_no_uncaught | ].
      split; [reflexivity | ].
      cbn [output_text]. apply res_of_label.
      exact (diagnose_label _ _ _ Er).
    + left. split; [ | reflexivity].
      exists e. apply in_or_app. right. left. reflexivity.
Qed.

(** X5. [run_diagnosis] leaves the events of [diagnose]. When [diagnose]
    raises, it raises the same exception and the widgets are untouched;
    when [diagnose] returns a label, the label is cleared and the text
    shown is "Normal" exactly for ['n'], "Benign" exactly for ['b'],
    "Malignant" exactly for ['m']. *)
Theorem run_diagnosis_outcome (st : state) (image_path : string) :
  let d := diagnose image_path st in
  let o := App.run_diagnosis image_path st in
  emitted o = emitted d
  /\ (forall e, res d = Raise e -> res o = Raise e /\ final o = st)
  /\ (forall r, res d = Ok r ->
        res o = Ok tt
        /\ final o = with_ui st (mkWidgets "" (App.res_of r))
        /\ (App.res_of r = "Normal" <-> r = "n")
        /\ (App.res_of r = "Benign" <-> r = "b")
        /\ (App.res_of r = "Malignant" <-> r = "m")).
Proof.
  cbv zeta. rewrite run_diagnosis_unfold. cbv zeta.
  destruct (res (diagnose image_path st)) as [r | e] eqn:Er;
    cbn [res emitted final]; (split; [reflexivity | split]);
    try (intros ? [=]; fail).
  - intros r' [= <-]. split; [reflexivity | split; [reflexivity | ] ].
    destruct (diagnose_label _ _ _ Er) as [-> | [-> | ->] ];
      cbn; repeat split; intros; congruence.
  - intros e' [= <-]. split; reflexivity.
Qed.

(** X6. [diagnose] neither writes nor reads the widgets, and writes no
    file: it ends in the state it started from, and with other widgets it
    returns the same result and leaves the same events. *)
Theorem diagnose_ignores_widgets (st : state) (image_path : string)
  (w : widgets) :
  final (diagnose image_path st) = st
  /\ res (diagnose image_path (with_ui st w)) = res (diagnose image_path st)
  /\ emitted (diagnose image_path (with_ui st w))
     = emitted (diagnose image_path st).
Proof.
  split; [apply diagnose_final | ].
  rewrite !diagnose_unfold, !predict_unfold. cbv zeta.
  cbn [with_ui models images garbage].
  destruct (models st model_1_path); [split; reflexivity | ].
  destruct (images st image_path); try (split; reflexivity).
  destruct (load_img_decoded _ img shape1); [ | split; reflexivity].
  destruct (accepts m _); [ | split; reflexivity].
  cbn [res]. destruct (_ =? 1)%Z; [split; reflexivity | ].
  destruct (models st model_2_path); [split; reflexivity | ].
  destruct (load_img_decoded _ img shape2); [ | split; reflexivity].
  destruct (accepts m0 _); split; reflexivity.
Qed.

(** ** Sessions *)

Lemma upload_image_frame (st : state) (file_path : string) :
  let o := App.upload_image file_path st in
  res o = Ok tt
  /\ models (final o) = models st
  /\ images (final o) = images st.
Proof.
  cbv zeta. destruct (String.eqb_spec file_path "") as [-> | Hne].
  - cbn. repeat split.
  - rewrite (upload_image_unfold file_path st Hne). cbv zeta.
    destruct (res (diagnose _ _)); repeat split.
Qed.

Lemma upload_image_displayable (st : state) (file_path : string) :
  displayable (ui st) ->
  displayable (ui (final (App.upload_image file_path st))).
Proof.
  intros Hd. destruct (String.eqb_spec file_path "") as [-> | Hne];
    [exact Hd | ].
  rewrite (upload_image_unfold file_path st Hne). cbv zeta.
  destruct (res (diagnose _ _)) as [r | e] eqn:Er; cbn [final ui].
  - split; [left; reflexivity | right].
    apply res_of_label. exact (diagnose_label _ _ _ Er).
  - split; [right; reflexivity | exact (proj2 Hd)].
Qed.

Lemma mainloop_cons (file_path : string) (rest : list string)
  (st : state) :
  let o1 := App.upload_image file_path st in
  let o2 := mainloop rest (final o1) in
  mainloop (file_path :: rest) st =
  mkOutcome (res o2) (emitted o1 ++ emitted o2) (final o2).
Proof.
  cbv zeta. cbn [mainloop]. unfold bind.
  destruct (upload_image_frame st file_path) as (-> & _). reflexivity.
Qed.

(** X7. Over any sequence of clicks, [mainloop] never raises and writes
    no file; every image it reads is under [./Testing/]; and from a
    displayable window, such as the empty one the application starts
    with, the window stays displayable: the text "Error" is never
    shown. *)
Theorem mainloop_invariant (answers : list string) (st : state) :
  let o := mainloop answers st in
  res o = Ok tt
  /\ models (final o) = models st
  /\ images (final o) = images st
  /\ (forall ip sh, In (EvLoadImg ip sh) (emitted o) ->
        exists image_name, ip = String.append "./Testing/" image_name)
  /\ (displayable (ui st) ->
      displayable (ui (final o)) /\ output_text (ui (final o)) <> "Error").
Proof.
  cbv zeta. revert st.
  induction answers as [ | file_path rest IH]; intros st.
  - cbn [mainloop]. unfold ret. cbn [res emitted final].
    repeat (split; [reflexivity | ]).
    split; [intros ip sh [] | ].
    intros Hd. split; [exact Hd | ].
    destruct Hd as (_ & [E | [E | [E | E] ] ]); rewrite E; discriminate.
  - rewrite mainloop_cons. cbv zeta. cbn [res emitted final].
    destruct (upload_image_frame st file_path) as (_ & Hm & Hi).
    destruct (IH (final (App.upload_image file_path st)))
      as (Hres & Hm' & Hi' & Hload & Hdisp).
    split; [exact Hres | ]. split; [congruence | ]. split; [congruence | ].
    split.
    + intros ip sh H. apply in_app_or in H as [H | H].
      * apply upload_image_load_path in H. eauto.
      * exact (Hload ip sh H).
    + intros Hd. apply Hdisp. apply upload_image_displayable. exact Hd.
Qed.

(** ** When [predict] returns and when it runs the graph *)

Lemma shape_eqb_eq (s1 s2 : list nat) : shape_eqb s1 s2 = true <-> s1 = s2.
Proof.
  revert s2. induction s1 as [ | a s1 IH]; intros [ | b s2]; cbn [shape_eqb];
    try (split; [discriminate | discriminate]); [tauto | ].
  rewrite andb_true_iff, Nat.eqb_eq, IH. split.
  - intros [-> ->]. reflexivity.
  - intros [= -> ->]. auto.
Qed.

Lemma accepts_iff (m : model) (t : ndarray) :
  accepts m t = true <-> arr_shape t = input_shape m.
Proof. unfold accepts. apply shape_eqb_eq. Qed.

Lemma accepts_false_iff (m : model) (t : ndarray) :
  accepts m t = false <-> arr_shape t <> input_shape m.
Proof.
  rewrite <- accepts_iff. destruct (accepts m t); split; congruence.
Qed.

(** With a loadable model, a readable picture and a non-empty target,
    [predict] gets as far as writing the tensor of the loaded picture. *)
Lemma predict_sets_tensor (st : state) (image_path model_path : string)
  (h w : nat) (img : Image) (m : model) :
  images st image_path = Picture img ->
  models st model_path = ModelFile m ->
  0 < h -> 0 < w ->
  exists image,
    load_img_decoded (garbage st w h) img (h, w) = Ok image
    /\ In (EvSetTensor model_path (tensor_of image))
          (emitted (predict image_path (h, w) model_path st)).
Proof.
  intros Ei Em Hh Hw. rewrite predict_unfold, Em, Ei. cbv zeta.
  cbn [fst snd].
  destruct (load_img_decoded_ok (garbage st w h) img h w Hh Hw)
    as [image E].
  exists image. rewrite E. split; [reflexivity | ].
  destruct (accepts m _); cbn [emitted app]; do 3 right; left; reflexivity.
Qed.

(** X8. [predict] returns a class exactly when the model file loads, the
    image file decodes, the resize is accepted and the tensor has the
    shape of the model's input; the class is then the thresholded answer
    of the model on that tensor, 0 or 1. In every other case it raises. *)
Theorem predict_returns_iff (st : state) (image_path : string)
  (shape : nat * nat) (model_path : string) (c : Z) :
  (res (predict image_path shape model_path st) = Ok c <->
   exists m img image,
     models st model_path = ModelFile m
     /\ images st image_path = Picture img
     /\ load_img_decoded (garbage st (snd shape) (fst shape)) img shape
        = Ok image
     /\ arr_shape (tensor_of image) = input_shape m
     /\ c = threshold (infer m (tensor_of image)))
  /\ (res (predict image_path shape model_path st) = Ok c ->
      c = 0%Z \/ c = 1%Z).
Proof.
  split; [ | apply predict_class].
  predict_cases; cbn [res]; split;
    try (intros [=]; fail);
    try (intros (m' & img' & image' & Hm & Hi & Hl & Hs & Hc);
         try discriminate Hm; try discriminate Hi;
         injection Hm as <-; injection Hi as <-;
         rewrite Eload in Hl; try discriminate Hl; injection Hl as <-;
         apply accepts_iff in Hs; congruence).
  intros [= <-]. exists m, img, image.
  split; [reflexivity | split; [reflexivity | split; [exact Eload | ] ] ].
  split; [apply accepts_iff; exact Eshape | reflexivity].
Qed.

(** X9. The graph is run only on a tensor of the shape of its input: the
    events before an invocation are exactly the construction of the
    interpreter, the allocation, the load of the image and, last, a
    [set_tensor] of a value of that shape; so every invocation comes
    right after a [set_tensor] of such a value, and there is one
    invocation at most. When the tensor written has another shape,
    [predict] raises the dimension mismatch, carrying both shapes, the
    graph is not run and no answer is read. *)
Theorem predict_invokes_only_accepted (st : state) (image_path : string)
  (shape : nat * nat) (model_path : string) :
  let o := predict image_path shape model_path st in
  (forall pre post,
      emitted o = pre ++ EvInvoke model_path :: post ->
      exists m t,
        models st model_path = ModelFile m
        /\ pre = [EvInterpreter model_path; EvAllocate model_path;
                  EvLoadImg image_path shape] ++ [EvSetTensor model_path t]
        /\ arr_shape t = input_shape m
        /\ ~ In (EvInvoke model_path) pre
        /\ ~ In (EvInvoke model_path) post)
  /\ (In (EvInvoke model_path) (emitted o) ->
      exists m t,
        models st model_path = ModelFile m
        /\ In (EvSetTensor model_path t) (emitted o)
        /\ arr_shape t = input_shape m)
  /\ (forall m t,
        models st model_path = ModelFile m ->
        In (EvSetTensor model_path t) (emitted o) ->
        arr_shape t <> input_shape m ->
        res o = Raise (ValueError_dimension model_path (arr_shape t)
                         (input_shape m))
        /\ ~ In (EvInvoke model_path) (emitted o)
        /\ forall p, ~ In (EvGetTensor model_path p) (emitted o)).
Proof.
  cbv zeta. split; [ | split].
  - intros pre post.
    predict_cases; cbn [emitted app]; intros H;
      repeat (destruct pre as [ | ? pre]; cbn [app] in H;
              try discriminate H;
              try (injection H as <- H));
      try (inversion H; fail).
    injection H as <-.
    exists m, (tensor_of image).
    split; [reflexivity | split; [reflexivity | ] ].
    split; [apply accepts_iff; exact Eshape | ].
    split; intros H; in_events.
  - predict_cases; cbn [emitted app]; intros H; in_events.
    exists m, (tensor_of image).
    split; [reflexivity | split; [do 3 right; left; reflexivity | ] ].
    apply accepts_iff. exact Eshape.
  - intros m' t Hm. revert Hm.
    predict_cases; cbn [res emitted app]; intros Hm H Hs;
      try discriminate Hm; injection Hm as <-; in_events.
    + apply accepts_iff in Eshape. congruence.
    + split; [reflexivity | split; [intros H; in_events | ] ].
      intros p H. in_events.
Qed.

(** ** What a result of [diagnose] tells *)

(** X10. A label is never returned without the readings that justify it:
    ['n'] only after a first reading above 0.5 and with no second stage;
    ['b'] and ['m'] only after a first reading not above 0.5 and a second
    reading that is, respectively, not above and above 0.5. *)
Theorem diagnose_label_sound (st : state) (image_path : string) :
  let o := diagnose image_path st in
  (res o = Ok "n" ->
   exists p1, In (EvGetTensor model_1_path p1) (emitted o)
              /\ gt p1 half = true
              /\ ~ In (EvInterpreter model_2_path) (emitted o))
  /\ (res o = Ok "b" ->
      exists p1 p2, In (EvGetTensor model_1_path p1) (emitted o)
                    /\ gt p1 half = false
                    /\ In (EvGetTensor model_2_path p2) (emitted o)
                    /\ gt p2 half = false)
  /\ (res o = Ok "m" ->
      exists p1 p2, In (EvGetTensor model_1_path p1) (emitted o)
                    /\ gt p1 half = false
                    /\ In (EvGetTensor model_2_path p2) (emitted o)
                    /\ gt p2 half = true).
Proof.
  cbv zeta. split; [ | split].
  - diagnose_cases; intros [=].
    all: eexists; split; [do 5 right; left; reflexivity | ].
    all: split; [assumption | intros H; in_events].
  - diagnose_cases; intros [=].
    all: do 2 eexists; split; [do 5 right; left; reflexivity | ].
    all: split; [assumption | ].
    all: split; [do 11 right; left; reflexivity | assumption].
  - diagnose_cases; intros [=].
    all: do 2 eexists; split; [do 5 right; left; reflexivity | ].
    all: split; [assumption | ].
    all: split; [do 11 right; left; reflexivity | assumption].
Qed.

Lemma shape1_loads (dirty : nat -> nat -> nat -> Byte.byte) (img : Image)
  (e : exn) :
  load_img_decoded dirty img shape1 <> Raise e.
Proof.
  destruct (load_img_decoded_ok dirty img 224 224) as [image E];
    [lia | lia | ].
  change (224, 224) with shape1 in E. congruence.
Qed.

Lemma shape2_loads (dirty : nat -> nat -> nat -> Byte.byte) (img : Image)
  (e : exn) :
  load_img_decoded dirty img shape2 <> Raise e.
Proof.
  destruct (load_img_decoded_ok dirty img 299 299) as [image E];
    [lia | lia | ].
  change (299, 299) with shape2 in E. congruence.
Qed.

(** X11. An exception of [diagnose] is the exception of one of its two
    calls of [predict], the second only after the first returned 0. A
    failure of the image file is always met in the first stage, before
    the second model is touched; and [diagnose] never raises the
    refusal of an empty resize target. *)
Theorem diagnose_error_origin (st : state) (image_path : string)
  (e : exn) :
  let o := diagnose image_path st in
  let o1 := predict image_path shape1 model_1_path st in
  let o2 := predict image_path shape2 model_2_path st in
  res o = Raise e ->
  ((res o1 = Raise e /\ emitted o = emitted o1)
   \/ (res o1 = Ok 0%Z /\ res o2 = Raise e
       /\ emitted o = emitted o1 ++ emitted o2))
  /\ (is_input_error e = true ->
      res o1 = Raise e
      /\ forall ev, In ev (emitted o) -> stage2_event ev = false)
  /\ (forall w h, e <> ValueError_size w h).
Proof.
  cbv zeta. diagnose_cases; intros [= <-];
    try (exfalso; eapply shape1_loads; eassumption);
    try (exfalso; eapply shape2_loads; eassumption).
  all: split; [ (left; split; reflexivity)
                || (right; split; [reflexivity | split; reflexivity]) | ].
  all: split; [ | intros w h; discriminate].
  all: cbn [is_input_error]; intros Hin; try discriminate Hin.
  all: split; [reflexivity | intros ev Hev; in_events; reflexivity].
Qed.

(** X12. A missing second model goes unnoticed as long as the first stage
    says normal: [diagnose] raises the load failure of the second model
    exactly when that model is missing and the first stage returned 0. *)
Theorem diagnose_model2_needed_lazily (st : state) (image_path : string) :
  let o := diagnose image_path st in
  let o1 := predict image_path shape1 model_1_path st in
  (res o = Raise (ValueError_model model_2_path) <->
   models st model_2_path = NoModel /\ res o1 = Ok 0%Z)
  /\ (res o1 = Ok 1%Z -> res o = Ok "n").
Proof.
  cbv zeta. split.
  - diagnose_cases; split; try (intros [=]; fail);
      try (intros [[=] [=] ]; fail); try (intros [_ [=] ]; fail);
      try (intros _; split; reflexivity); try (intros _; reflexivity).
    all: try (intros [= ->]; exfalso; eapply shape1_loads; eassumption).
    all: try (intros [= ->]; exfalso; eapply shape2_loads; eassumption).
  - diagnose_cases; intros [=]; reflexivity.
Qed.

(** X13. A NaN is not above 0.5: a NaN read from the first model sends
    [diagnose] to the second stage, never to ['n']; a NaN read from the
    second model gives ['b']. *)
Theorem diagnose_nan_is_class0 (st : state) (image_path : string)
  (p : float32) :
  let o := diagnose image_path st in
  is_nan p = true ->
  (In (EvGetTensor model_1_path p) (emitted o) ->
   In (EvInterpreter model_2_path) (emitted o) /\ res o <> Ok "n")
  /\ (In (EvGetTensor model_2_path p) (emitted o) -> res o = Ok "b").
Proof.
  cbv zeta. intros Hnan.
  assert (Hgt : gt p half = false) by (destruct p; try discriminate Hnan;
                                       reflexivity).
  split.
  - diagnose_cases; intros H; in_events; try congruence;
      (split; [do 6 right; left; reflexivity | discriminate]).
  - diagnose_cases; intros H; in_events; try congruence; reflexivity.
Qed.

(** ** Normalisation keeps the intensities apart *)

Lemma intensity_table_order : order_kept intensity_table = true.
Proof. vm_compute. reflexivity. Qed.

Lemma intensity_in_table (b : Byte.byte) :
  In (Byte.to_N b, normalised b) intensity_table.
Proof.
  unfold intensity_table. apply in_map_iff.
  exists (N.to_nat (Byte.to_N b)). split.
  - rewrite N2Nat.id. unfold normalised, of_byte.
    rewrite N_nat_Z. reflexivity.
  - apply in_seq. pose proof (Byte.to_N_bounded b). lia.
Qed.

Lemma normalised_order (b b' : Byte.byte) :
  SFltb (normalised b) (normalised b') = (Byte.to_N b <? Byte.to_N b')%N.
Proof.
  pose proof intensity_table_order as H. unfold order_kept in H.
  rewrite forallb_forall in H.
  specialize (H _ (intensity_in_table b)).
  rewrite forallb_forall in H.
  specialize (H _ (intensity_in_table b')).
  apply Bool.eqb_prop in H. exact H.
Qed.

Lemma byte_to_N_inj (b b' : Byte.byte) :
  Byte.to_N b = Byte.to_N b' -> b = b'.
Proof.
  intros H. pose proof (Byte.of_to_N b) as E.
  rewrite H, Byte.of_to_N in E. congruence.
Qed.

Lemma tensor_of_item_some (image : Image) (y x c : nat) (v : float32) :
  arr_item (tensor_of image) [0; y; x; c] = Some v ->
  v = normalised (im_px image x y c).
Proof.
  rewrite tensor_of_item.
  destruct (in_bounds _ _); [ | discriminate]. intros [= <-]. reflexivity.
Qed.

(** X14. Normalisation loses nothing: two items of the tensor compare as
    the intensities they come from, so they are equal floats only when
    the intensities are equal. *)
Theorem normalisation_keeps_order (image : Image)
  (y x c y' x' c' : nat) (v v' : float32) :
  arr_item (tensor_of image) [0; y; x; c] = Some v ->
  arr_item (tensor_of image) [0; y'; x'; c'] = Some v' ->
  SFltb v v'
  = (Byte.to_N (im_px image x y c) <? Byte.to_N (im_px image x' y' c'))%N
  /\ (v = v' <-> im_px image x y c = im_px image x' y' c').
Proof.
  intros Hv Hv'. apply tensor_of_item_some in Hv, Hv'. subst v v'.
  split; [apply normalised_order | ]. split.
  - intros E. apply byte_to_N_inj.
    pose proof (normalised_order (im_px image x y c)
                  (im_px image x' y' c')) as H1.
    pose proof (normalised_order (im_px image x' y' c')
                  (im_px image x y c)) as H2.
    rewrite E in H1. rewrite <- E in H2 at 1.
    assert (Hirr : SFltb (normalised (im_px image x' y' c'))
                         (normalised (im_px image x' y' c')) = false).
    { unfold SFltb.
      pose proof (SFcompare_antisym
                    (normalised (im_px image x' y' c'))
                    (normalised (im_px image x' y' c'))) as Ha.
      destruct (SFcompare _ _) as [ [ | | ] | ]; try reflexivity.
      discriminate Ha. }
    rewrite Hirr in H1. rewrite E in H2. rewrite Hirr in H2.
    symmetry in H1, H2. apply N.ltb_ge in H1, H2. lia.
  - intros ->. reflexivity.
Qed.

(** ** Pictures that need no resize, and targets that admit none *)

(** X15. A picture that already has the target size is not resampled:
    the item at [[0, y, x, c]] is the intensity of the file's own pixel at
    column [x], row [y], divided by 255.0; band [c] for a colour picture,
    the one grey level on all three channels for a grey picture. *)
Theorem same_size_image_not_resampled (st : state)
  (image_path model_path : string) (img : Image) (t : ndarray) :
  images st image_path = Picture img ->
  In (EvSetTensor model_path t)
     (emitted (predict image_path (im_height img, im_width img)
                       model_path st)) ->
  forall y x c, y < im_height img -> x < im_width img -> c < 3 ->
    arr_item t [0; y; x; c]
    = Some (div (of_byte (im_px img x y
                            (match im_mode img with L => 0 | _ => c end)))
                c255).
Proof.
  intros Ei. rewrite predict_unfold, Ei. cbv zeta.
  cbn [fst snd].
  assert (El : exists image,
             load_img_decoded (garbage st (im_width img) (im_height img))
               img (im_height img, im_width img) = Ok image
             /\ im_width image = im_width img
             /\ im_height image = im_height img
             /\ im_mode image = RGB
             /\ forall x y c,
                  im_px image x y c
                  = im_px img x y (match im_mode img with
                                   | L => 0 | _ => c end)).
  { unfold load_img_decoded, convert_RGB. cbn [fst snd].
    destruct (im_mode img) eqn:Emode; cbn [im_width im_height];
      rewrite !Nat.eqb_refl; cbn [andb]; eexists;
      (split; [reflexivity | ]); cbn [im_width im_height im_mode im_px];
      repeat split; assumption. }
  destruct El as (image & -> & Ew & Eh & Em & Epx).
  destruct (models st model_path) as [ | m];
    [cbn [emitted]; intros H; in_events | ].
  intros H y x c Hy Hx Hc.
  assert (Ht : t = tensor_of image).
  { destruct (accepts m _); cbn [emitted app] in H; in_events; reflexivity. }
  subst t. rewrite tensor_of_item, tensor_of_shape, Ew, Eh, Em.
  cbn [bands in_bounds].
  apply Nat.ltb_lt in Hy, Hx, Hc. rewrite Hy, Hx, Hc. cbn [andb].
  rewrite Epx. reflexivity.
Qed.

(** X16. An empty target is refused: with a height or a width of 0, and
    a picture that has not that size already, [predict] raises the
    refusal of the resize once the model is loaded, and writes no tensor
    to the interpreter. *)
Theorem predict_empty_target_refused (st : state)
  (image_path model_path : string) (h w : nat) (img : Image) (m : model) :
  images st image_path = Picture img ->
  models st model_path = ModelFile m ->
  h = 0 \/ w = 0 ->
  im_width img <> w \/ im_height img <> h ->
  let o := predict image_path (h, w) model_path st in
  res o = Raise (ValueError_size w h)
  /\ emitted o = [EvInterpreter model_path; EvAllocate model_path;
                  EvLoadImg image_path (h, w)].
Proof.
  intros Ei Em Hzero Hsize. cbv zeta. rewrite predict_unfold, Em, Ei.
  cbv zeta.
  cbn [fst snd].
  assert (El : load_img_decoded (garbage st w h) img (h, w)
               = Raise (ValueError_size w h)).
  { unfold load_img_decoded, convert_RGB, resize. cbn [fst snd].
    assert (Hz : (w <? 1) || (h <? 1) = true).
    { apply orb_true_iff. destruct Hzero as [-> | ->]; auto. }
    assert (Hs : (im_width img =? w) && (im_height img =? h) = false).
    { apply andb_false_iff.
      destruct Hsize as [H | H]; [left | right]; apply Nat.eqb_neq; exact H. }
    destruct (im_mode img); cbn [im_width im_height]; rewrite Hs, Hz;
      reflexivity. }
  rewrite El. split; reflexivity.
Qed.

(** ** The window, widget by widget *)

Lemma content_after_output (self : TkApp.window) (text : string) :
  TkApp.tx_chars (TkApp.output_text (TkApp.display_output self text))
  = map (fun c => (c, ["center"])) (list_ascii_of_string text).
Proof.
  unfold TkApp.display_output, TkApp.text_config_state,
    TkApp.text_delete_all, TkApp.text_insert_end, TkApp.text_tag_add_all,
    TkApp.text_tag_configure.
  cbn [TkApp.tx_state TkApp.tx_chars TkApp.output_text rev app].
  rewrite map_map. reflexivity.
Qed.

Lemma display_output_content (self : TkApp.window) (text : string) :
  TkApp.content (TkApp.output_text (TkApp.display_output self text)) = text.
Proof.
  unfold TkApp.content. rewrite content_after_output, map_map.
  cbn [fst]. rewrite map_id. apply string_of_list_ascii_of_string.
Qed.

(** X17. [display_output] replaces the text, it does not append:
    whatever the widget held and whether or not it was editable, the text
    widget then holds exactly [text], every character of it is centred,
    the widget is disabled again and the label is cleared; the title, the
    geometry and the button are untouched. *)
Theorem display_output_replaces (self : TkApp.window) (text : string) :
  let w := TkApp.display_output self text in
  TkApp.content (TkApp.output_text w) = text
  /\ TkApp.tx_state (TkApp.output_text w) = TkApp.DISABLED
  /\ Forall (fun ch => TkApp.justify_of (TkApp.output_text w) (snd ch)
                       = Some "center")
            (TkApp.tx_chars (TkApp.output_text w))
  /\ TkApp.lb_text (TkApp.loading_label w) = ""
  /\ (TkApp.title w, TkApp.geometry w, TkApp.upload_button w)
     = (TkApp.title self, TkApp.geometry self, TkApp.upload_button self).
Proof.
  cbv zeta. split; [ | split; [reflexivity | split; [ | split; reflexivity] ] ].
  - apply display_output_content.
  - rewrite content_after_output. apply Forall_forall.
    intros ch Hin. apply in_map_iff in Hin as (c & <- & _). reflexivity.
Qed.

Lemma step_disabled (self : TkApp.window) (c : TkApp.call) :
  TkApp.tx_state (TkApp.output_text self) = TkApp.DISABLED ->
  TkApp.tx_state (TkApp.output_text (TkApp.step self c)) = TkApp.DISABLED.
Proof. destruct c; intros H; [exact H | reflexivity]. Qed.

(** X18. Over any sequence of calls of [display_loading] and
    [display_output] on a window whose text widget is disabled, as it is
    when the application starts, the text widget is never left editable,
    it holds the text of the last [display_output] (its first content if
    there was none), and the button, the wrapping and the height are
    those of the start. *)
Theorem window_never_editable (calls : list TkApp.call)
  (self : TkApp.window) :
  TkApp.tx_state (TkApp.output_text self) = TkApp.DISABLED ->
  let w := fold_left TkApp.step calls self in
  TkApp.tx_state (TkApp.output_text w) = TkApp.DISABLED
  /\ TkApp.content (TkApp.output_text w)
     = TkApp.last_output calls (TkApp.content (TkApp.output_text self))
  /\ TkApp.upload_button w = TkApp.upload_button self
  /\ TkApp.tx_wrap (TkApp.output_text w)
     = TkApp.tx_wrap (TkApp.output_text self)
  /\ TkApp.tx_height (TkApp.output_text w)
     = TkApp.tx_height (TkApp.output_text self).
Proof.
  revert self. induction calls as [ | c rest IH]; intros self Hd; cbv zeta.
  - cbn. repeat split; auto.
  - cbn [fold_left].
    destruct (IH (TkApp.step self c) (step_disabled self c Hd))
      as (H1 & H2 & H3 & H4 & H5).
    split; [exact H1 | ]. rewrite H2, H3, H4, H5.
    destruct c as [ | text]; cbn [TkApp.step TkApp.last_output].
    + repeat split; reflexivity.
    + rewrite display_output_content. repeat split; reflexivity.
Qed.

(** X19. The two strings the pipeline's model keeps of the window are
    what the widgets show: each display method, run on the widgets and on
    the two strings, ends with the same label text and the same text. *)
Theorem display_methods_agree (self : TkApp.window) (st : state)
  (text : string) :
  ui st = TkApp.shown self ->
  ui (final (App.display_loading st))
  = TkApp.shown (TkApp.display_loading self)
  /\ ui (final (App.display_output text st))
     = TkApp.shown (TkApp.display_output self text)
  /\ ui (final (bind App.display_loading
                     (fun _ => App.display_output text) st))
     = TkApp.shown
         (TkApp.display_output (TkApp.display_loading self) text).
Proof.
  intros Hui. unfold TkApp.shown.
  rewrite !display_output_content. cbn. rewrite Hui.
  split; [reflexivity | split; reflexivity].
Qed.

(** * Concrete runs of the further properties *)

(** With the first model in place, [upload_image] gets as far as the
    first load. *)
Lemma upload_emits_first_load (st : state) (file_path : string)
  (m : model) :
  file_path <> "" ->
  models st model_1_path = ModelFile m ->
  In (EvLoadImg (String.append "./Testing/" (last (split "/" file_path) ""))
                shape1)
     (emitted (App.upload_image file_path st)).
Proof.
  intros Hne Hm. rewrite (upload_image_unfold file_path st Hne). cbv zeta.
  set (st' := with_ui st _).
  set (ip := String.append _ _).
  assert (Hd : In (EvLoadImg ip shape1) (emitted (diagnose ip st'))).
  { rewrite diagnose_unfold. cbv zeta.
    assert (H1 : In (EvLoadImg ip shape1)
                   (emitted (predict ip shape1 model_1_path st'))).
    { rewrite predict_unfold. change (models st' model_1_path)
        with (models st model_1_path). rewrite Hm. cbv zeta.
      destruct (images st' ip); cbn [emitted];
        try (do 2 right; left; reflexivity).
      destruct (load_img_decoded _ img shape1);
        [ | do 2 right; left; reflexivity].
      destruct (accepts m _); do 2 right; left; reflexivity. }
    destruct (res (predict ip shape1 model_1_path st')) as [c1 | e];
      [ | exact H1].
    destruct (c1 =? 1)%Z; [exact H1 | ].
    destruct (res (predict ip shape2 model_2_path st'));
      cbn [emitted]; apply in_or_app; left; exact H1. }
  destruct (res (diagnose ip st')); cbn [emitted];
    [exact Hd | apply in_or_app; left; exact Hd].
Qed.

Lemma upload_image_reads_testing_child_witness :
  exists dir image_name,
    "/home/user/scan.png" = String.append dir image_name
    /\ contains "/" image_name = false
    /\ "./Testing/scan.png" = String.append "./Testing/" image_name.
Proof.
  assert (Hne : "/home/user/scan.png" <> "") by discriminate.
  destruct (upload_image_reads_testing_child
              (fixture half half "./Testing/scan.png")
              "/home/user/scan.png" "./Testing/scan.png" shape1
              (upload_emits_first_load
                 (fixture half half "./Testing/scan.png")
                 "/home/user/scan.png" (constant_model 224 half)
                 Hne eq_refl))
    as (dir & image_name & H1 & _ & H2 & H3).
  exists dir, image_name. split; [exact H1 | split; [exact H2 | exact H3] ].
Defined.


Lemma upload_image_outcome_witness :
  let st := fixture_without_model2 half "./Testing/scan.png" in
  final (App.upload_image "" st) = st
  /\ ui (final (App.upload_image "/home/user/scan.png" st))
     = mkWidgets "Loading..." "".
Proof.
  cbv zeta. split.
  - destruct (upload_image_outcome
                (fixture_without_model2 half "./Testing/scan.png") "")
      as (_ & _ & _ & H & _).
    exact (proj2 (H eq_refl)).
  - assert (Hne : "/home/user/scan.png" <> "") by discriminate.
    destruct (upload_image_outcome
                (fixture_without_model2 half "./Testing/scan.png")
                "/home/user/scan.png") as (_ & _ & _ & _ & H).
    destruct (H Hne) as [ (_ & Hui) | (_ & Hl & _) ].
    + exact Hui.
    + discriminate Hl.
Defined.

Lemma run_diagnosis_outcome_witness :
  let st := fixture (ratio 1 10) (ratio 9 10) "fixture.png" in
  res (App.run_diagnosis "fixture.png" st) = Ok tt
  /\ final (App.run_diagnosis "fixture.png" st)
     = with_ui st (mkWidgets "" "Malignant")
  /\ res (App.run_diagnosis "missing.png" st)
     = Raise (FileNotFoundError "missing.png").
Proof.
  cbv zeta.
  destruct (run_diagnosis_outcome
              (fixture (ratio 1 10) (ratio 9 10) "fixture.png")
              "fixture.png") as (_ & _ & Hok).
  destruct (run_diagnosis_outcome
              (fixture (ratio 1 10) (ratio 9 10) "fixture.png")
              "missing.png") as (_ & Hraise & _).
  destruct (Hok "m" eq_refl) as (H1 & H2 & _).
  split; [exact H1 | split; [exact H2 | ] ].
  exact (proj1 (Hraise (FileNotFoundError "missing.png") eq_refl)).
Defined.

Lemma mainloop_invariant_witness :
  let st := fixture half half "./Testing/scan.png" in
  let o := mainloop ["/home/user/scan.png"; ""; "/tmp/other.png"] st in
  output_text (ui (final o)) <> "Error"
  /\ exists image_name,
       "./Testing/scan.png" = String.append "./Testing/" image_name.
Proof.
  cbv zeta.
  destruct (mainloop_invariant
              ["/home/user/scan.png"; ""; "/tmp/other.png"]
              (fixture half half "./Testing/scan.png"))
    as (_ & _ & _ & Hload & Hdisp).
  split.
  - apply Hdisp. split; left; reflexivity.
  - apply (Hload "./Testing/scan.png" shape1).
    rewrite mainloop_cons. cbv zeta. cbn [emitted].
    apply in_or_app. left.
    assert (Hne : "/home/user/scan.png" <> "") by discriminate.
    exact (upload_emits_first_load
             (fixture half half "./Testing/scan.png")
             "/home/user/scan.png" (constant_model 224 half) Hne eq_refl).
Defined.

Lemma predict_returns_iff_witness :
  let st := fixture half half "fixture.png" in
  exists m img image,
    models st model_1_path = ModelFile m
    /\ images st "fixture.png" = Picture img
    /\ load_img_decoded (garbage st 224 224) img shape1 = Ok image
    /\ arr_shape (tensor_of image) = input_shape m.
Proof.
  cbv zeta.
  destruct (predict_returns_iff (fixture half half "fixture.png")
              "fixture.png" shape1 model_1_path 0%Z) as (Hiff & _).
  destruct (proj1 Hiff eq_refl) as (m & img & image & H1 & H2 & H3 & H4 & _).
  exists m, img, image.
  split; [exact H1 | split; [exact H2 | split; [exact H3 | exact H4] ] ].
Defined.

Lemma predict_invokes_only_accepted_witness :
  let st := fixture half half "fixture.png" in
  (exists m t post,
      models st model_1_path = ModelFile m
      /\ emitted (predict "fixture.png" shape1 model_1_path st)
         = [EvInterpreter model_1_path; EvAllocate model_1_path;
            EvLoadImg "fixture.png" shape1; EvSetTensor model_1_path t;
            EvInvoke model_1_path] ++ post
      /\ arr_shape t = input_shape m)
  /\ exists got,
       res (predict "fixture.png" (299, 299) model_1_path st)
       = Raise (ValueError_dimension model_1_path got [1; 224; 224; 3]).
Proof.
  cbv zeta. split.
  - destruct (predict_invokes_only_accepted
                (fixture half half "fixture.png") "fixture.png" shape1
                model_1_path) as (H & _).
    destruct (fixture_predict half half "fixture.png")
      as (image1 & image2 & _ & _ & P1 & _).
    cbv zeta in P1.
    assert (Hsplit :
              emitted (predict "fixture.png" shape1 model_1_path
                         (fixture half half "fixture.png"))
              = [EvInterpreter model_1_path; EvAllocate model_1_path;
                 EvLoadImg "fixture.png" shape1;
                 EvSetTensor model_1_path (tensor_of image1)]
                ++ EvInvoke model_1_path
                   :: [EvGetTensor model_1_path half]).
    { rewrite P1. reflexivity. }
    destruct (H _ _ Hsplit) as (m & t & Hm & Hpre & Hs & _).
    exists m, t, [EvGetTensor model_1_path half].
    split; [exact Hm | split; [ | exact Hs] ].
    rewrite Hsplit, Hpre. reflexivity.
  - destruct (predict_invokes_only_accepted
                (fixture half half "fixture.png") "fixture.png" (299, 299)
                model_1_path) as (_ & _ & H).
    destruct (predict_sets_tensor (fixture half half "fixture.png")
                "fixture.png" model_1_path 299 299 fixture_image
                (constant_model 224 half) eq_refl eq_refl)
      as (image & El & Hin); [lia | lia | ].
    destruct (load_img_decoded_size _ _ _ _ _ El) as (Em & Ew & Eh).
    assert (Hs : arr_shape (tensor_of image) <> [1; 224; 224; 3]).
    { rewrite tensor_of_shape, Em, Ew, Eh. cbn [bands].
      intros E. discriminate E. }
    exists (arr_shape (tensor_of image)).
    exact (proj1 (H (constant_model 224 half) (tensor_of image)
                    eq_refl Hin Hs)).
Defined.

Lemma diagnose_label_sound_witness :
  let o := diagnose "fixture.png"
             (fixture (ratio 6 10) (ratio 9 10) "fixture.png") in
  let o' := diagnose "fixture.png"
              (fixture (ratio 1 10) (ratio 9 10) "fixture.png") in
  (exists p1, In (EvGetTensor model_1_path p1) (emitted o)
              /\ gt p1 half = true)
  /\ (exists p1 p2, In (EvGetTensor model_2_path p2) (emitted o')
                    /\ gt p1 half = false /\ gt p2 half = true).
Proof.
  cbv zeta. split.
  - destruct (diagnose_label_sound
                (fixture (ratio 6 10) (ratio 9 10) "fixture.png")
                "fixture.png") as (H & _).
    destruct (H eq_refl) as (p1 & H1 & H2 & _).
    exists p1. split; assumption.
  - destruct (diagnose_label_sound
                (fixture (ratio 1 10) (ratio 9 10) "fixture.png")
                "fixture.png") as (_ & _ & H).
    destruct (H eq_refl) as (p1 & p2 & _ & H2 & H3 & H4).
    exists p1, p2. repeat split; assumption.
Defined.

Lemma diagnose_error_origin_witness :
  let st := fixture half half "fixture.png" in
  res (predict "missing.png" shape1 model_1_path st)
  = Raise (FileNotFoundError "missing.png")
  /\ forall ev, In ev (emitted (diagnose "missing.png" st)) ->
                stage2_event ev = false.
Proof.
  cbv zeta.
  destruct (diagnose_error_origin (fixture half half "fixture.png")
              "missing.png" (FileNotFoundError "missing.png") eq_refl)
    as (_ & H & _).
  exact (H eq_refl).
Defined.

Lemma diagnose_model2_needed_lazily_witness :
  res (diagnose "fixture.png"
         (fixture_without_model2 (ratio 3 10) "fixture.png"))
  = Raise (ValueError_model model_2_path)
  /\ res (diagnose "fixture.png"
            (fixture_without_model2 (ratio 6 10) "fixture.png"))
     = Ok "n".
Proof.
  split.
  - apply (proj1 (diagnose_model2_needed_lazily
                    (fixture_without_model2 (ratio 3 10) "fixture.png")
                    "fixture.png")).
    split; reflexivity.
  - apply (proj2 (diagnose_model2_needed_lazily
                    (fixture_without_model2 (ratio 6 10) "fixture.png")
                    "fixture.png")).
    reflexivity.
Defined.

Lemma diagnose_nan_is_class0_witness :
  let st := fixture S754_nan S754_nan "fixture.png" in
  In (EvInterpreter model_2_path) (emitted (diagnose "fixture.png" st))
  /\ res (diagnose "fixture.png" st) = Ok "b".
Proof.
  cbv zeta.
  destruct (diagnose_nan_is_class0
              (fixture S754_nan S754_nan "fixture.png") "fixture.png"
              S754_nan eq_refl) as (H1 & H2).
  split.
  - apply H1. run_fixture S754_nan S754_nan "fixture.png". pick_event.
  - apply H2. run_fixture S754_nan S754_nan "fixture.png". pick_event.
Defined.

Lemma normalisation_keeps_order_witness :
  SFltb (normalised Byte.x33) (normalised Byte.xcc) = true.
Proof.
  exact (proj1 (normalisation_keeps_order fixture_image 0 0 0 0 1 0
                  (normalised Byte.x33) (normalised Byte.xcc)
                  eq_refl eq_refl)).
Defined.

Lemma same_size_image_not_resampled_witness :
  let st := fixture half half "fixture.png" in
  exists t,
    In (EvSetTensor model_1_path t)
       (emitted (predict "fixture.png" (2, 4) model_1_path st))
    /\ arr_item t [0; 1; 3; 2] = Some (normalised Byte.xcc).
Proof.
  cbv zeta.
  destruct (predict_sets_tensor (fixture half half "fixture.png")
              "fixture.png" model_1_path 2 4 fixture_image
              (constant_model 224 half) eq_refl eq_refl)
    as (image & _ & Hin); [lia | lia | ].
  exists (tensor_of image). split; [exact Hin | ].
  apply (same_size_image_not_resampled (fixture half half "fixture.png")
           "fixture.png" model_1_path fixture_image (tensor_of image)
           eq_refl Hin 1 3 2); cbn; lia.
Defined.

Lemma predict_empty_target_refused_witness :
  res (predict "fixture.png" (0, 5) model_1_path
         (fixture half half "fixture.png"))
  = Raise (ValueError_size 5 0).
Proof.
  apply (predict_empty_target_refused (fixture half half "fixture.png")
           "fixture.png" model_1_path 0 5 fixture_image
           (constant_model 224 half) eq_refl eq_refl).
  - left. reflexivity.
  - left. cbn. lia.
Defined.

Lemma window_never_editable_witness :
  let w := fold_left TkApp.step
             [TkApp.Loading; TkApp.Output "Benign"; TkApp.Loading]
             TkApp.init in
  TkApp.tx_state (TkApp.output_text w) = TkApp.DISABLED
  /\ TkApp.content (TkApp.output_text w) = "Benign".
Proof.
  cbv zeta.
  destruct (window_never_editable
              [TkApp.Loading; TkApp.Output "Benign"; TkApp.Loading]
              TkApp.init eq_refl) as (H1 & H2 & _).
  split; [exact H1 | exact H2].
Defined.

Lemma display_methods_agree_witness :
  ui (final (App.display_output "Normal" empty_disk))
  = TkApp.shown (TkApp.display_output TkApp.init "Normal").
Proof.
  exact (proj1 (proj2 (display_methods_agree TkApp.init empty_disk
                         "Normal" eq_refl))).
Defined.
